(** * Popover edit table directives

    A shallow embedding of the directives of
    [src/cdk-experimental/popover-edit/popover-edit-module.ts] (table-directives)
    ([CdkEditable], [CdkPopoverEdit], [CdkRowHoverContent], [CdkEditOpen],
    [CdkEditOpenButton]) and the properties of their cell-range computation,
    their event handlers and their overlay and view life cycles.

    Conventions of the embedding.
    - A DOM element is a node identifier; JavaScript's [===] on elements is
      equality of identifiers.  [HTMLElement | null] is [option Element].
    - The helper [closest] (./polyfill) and the selector constants
      (./constants) are not part of the sources at hand: they are taken as
      parameters, through the records [Dom] and [Constants].
    - The [number]s of a colspan are whole numbers of cells ([Z]); an absent
      field is [None].
    - A handler that rxjs runs for a subscription does not pass its
      exceptions on to the code that emitted: the subscription ends.
    - Calls into the host framework (overlay, portal, focus trap, position
      strategy factory, view container, subjects) are recorded, in program
      order, in a trace of [Call]s; the directive's own fields are a record.
    - A [TypeError] raised by the directive's own code (dereferencing a null
      row) is an explicit outcome of the monad [M]. *)

From Stdlib Require Import ZArith List String Bool Lia Arith.
Import ListNotations.
Local Open Scope Z_scope.

Set Implicit Arguments.

(** ** JavaScript arrays *)

Module JsArray.

(** [Array.prototype.slice]: a relative index below zero counts from the
    end of the array, and both ends are clamped to [0 .. len]. *)
Definition relative_index (len rel : Z) : Z :=
  if rel <? 0 then Z.max (len + rel) 0 else Z.min rel len.

Definition slice {A : Type} (l : list A) (start end_ : Z) : list A :=
  let len := Z.of_nat (List.length l) in
  let k := relative_index len start in
  let final := relative_index len end_ in
  firstn (Z.to_nat (final - k)) (skipn (Z.to_nat k) l).

(** [Array.prototype.indexOf]: the first index holding a value strictly
    equal to [x], or [-1]. *)
Fixpoint indexOf_from {A : Type} (eqb : A -> A -> bool) (l : list A) (x : A) (i : Z) : Z :=
  match l with
  | [] => -1
  | y :: t => if eqb y x then i else indexOf_from eqb t x (i + 1)
  end.

Definition indexOf {A : Type} (eqb : A -> A -> bool) (l : list A) (x : A) : Z :=
  indexOf_from eqb l x 0.

End JsArray.

(** ** The DOM, as far as the directives look at it *)

Definition Element := nat.

(** [HTMLElement | null] *)
Definition ElementOrNull := option Element.

Definition same_element (a b : ElementOrNull) : bool :=
  match a, b with
  | Some x, Some y => Nat.eqb x y
  | None, None => true
  | _, _ => false
  end.

Record Dom : Type := mkDom {
  (** [closest(element, selector)] of ./polyfill: the nearest inclusive
      ancestor matching the selector, or null. *)
  closest : ElementOrNull -> string -> ElementOrNull;
  (** [element.querySelectorAll(selector)], in document order. *)
  querySelectorAll : Element -> string -> list Element
}.

(** ** Colspan *)

(** [interface CdkPopoverEditColspan { before?: number; after?: number; }],
    for colspans that count cells: the values are whole numbers.  (The
    source type [number] also has fractions, which [slice] truncates; they
    are outside this record.) *)
Record CdkPopoverEditColspan : Type := mkColspan {
  before : option Z;
  after : option Z
}.

(** The default value [{}] of the field [_colspan]. *)
Definition empty_colspan : CdkPopoverEditColspan := mkColspan None None.

(** Truthiness of an optional integer: [undefined] and [0] are falsy. *)
Definition truthy (n : option Z) : bool :=
  match n with
  | None => false
  | Some v => negb (v =? 0)
  end.

(** [n || 0] *)
Definition or_zero (n : option Z) : Z :=
  match n with
  | Some v => if v =? 0 then 0 else v
  | None => 0
  end.

(** ** Outcomes *)

Inductive Outcome (A : Type) : Type :=
| Ok (a : A)
| Throw (msg : string).
Arguments Ok {A} a.
Arguments Throw {A} msg.

Definition TypeError_null : string := "TypeError: null dereference".

(** The error of a portal outlet that is asked to attach a second portal. *)
Definition Error_portal_attached : string := "Host already has a portal attached".

(** The constants imported from ./constants. *)
Record Constants : Type := mkConstants {
  CELL_SELECTOR : string;
  ROW_SELECTOR : string;
  EDIT_PANE_SELECTOR : string;
  EDIT_PANE_CLASS : string
}.

(** [CdkPopoverEdit._getOverlayCells], for the directive on [host] whose
    field [_colspan] is the third argument. *)
Definition _getOverlayCells (K : Constants) (dom : Dom) (host : Element)
    (_colspan : CdkPopoverEditColspan) : Outcome (list ElementOrNull) :=
  let cell := closest dom (Some host) (CELL_SELECTOR K) in
  if negb (truthy (before _colspan)) && negb (truthy (after _colspan)) then
    Ok [cell]
  else
    match closest dom (Some host) (ROW_SELECTOR K) with
    | None => Throw TypeError_null
    | Some row =>
        let rowCells := map Some (querySelectorAll dom row (CELL_SELECTOR K)) in
        let ownIndex := JsArray.indexOf same_element rowCells cell in
        Ok (JsArray.slice rowCells
              (ownIndex - or_zero (before _colspan))
              (ownIndex + or_zero (after _colspan) + 1))
    end.

(** ** The host framework, as seen from the directives *)

Definition TemplateRef := nat.
Definition Context := nat.
Definition Event := nat.

(** An [OverlayRef] and the pane element ([overlayElement]) made for it. *)
Record OverlayRef : Type := mkOverlayRef {
  overlayId : nat;
  overlayElement : Element
}.

(** A focus trap, known by the element it was created for. *)
Record FocusTrap : Type := mkFocusTrap { trapElement : Element }.

Definition EmbeddedViewRef := nat.

(** What the position strategy factory hands back is identified by the
    cells it was computed for. *)
Definition PositionStrategy := list ElementOrNull.
Definition SizeConfig := list ElementOrNull.

(** The effectful calls the directives make on framework and DOM objects. *)
Inductive Call : Type :=
| destroyed_next
| destroyed_complete
| overlay_create (panelClass : string) (positionStrategy : PositionStrategy) (created : OverlayRef)
| overlayRef_updatePositionStrategy (ref : OverlayRef) (strategy : PositionStrategy)
| overlayRef_updateSize (ref : OverlayRef) (size : SizeConfig)
| overlayRef_attach (ref : OverlayRef) (tpl : option TemplateRef) (implicit : option Context)
| overlayRef_detach (ref : OverlayRef)
| overlayRef_dispose (ref : OverlayRef)
| overlayRef_detachments_subscribe (ref : OverlayRef)
| overlayRef_detachments (ref : OverlayRef)
| focusTrapFactory_create (el : Element)
| focusInitialElementWhenReady (trap : FocusTrap)
| setAttribute (el : Element) (name value : string)
| element_focus (el : Element)
| doneEditingCell (el : Element)
| editing_next (cell : ElementOrNull)
| hovering_next (row : ElementOrNull)
| keyObserver_next (key : string) (target : ElementOrNull)
| stopPropagation (evt : Event)
| createEmbeddedView (tpl : TemplateRef) (created : EmbeddedViewRef)
| viewContainerRef_insert (view : EmbeddedViewRef)
| viewContainerRef_detach (index : Z)
| viewRef_destroy (view : EmbeddedViewRef).

(** The part of the page and of the framework services that the directives
    read or change. *)
Record World : Type := mkWorld {
  dom : Dom;
  (** [document.activeElement] *)
  activeElement : ElementOrNull;
  (** Number of overlays made so far by [overlay.create], and the pane
      element the overlay container makes for each. *)
  overlaysCreated : nat;
  newPane : nat -> Element;
  (** The overlays that have a portal attached ([hasAttached()]). *)
  attachedOverlays : list nat;
  (** Number of views made so far by [createEmbeddedView], and the views
      held by the directive's view container, in order. *)
  viewsCreated : nat;
  containerViews : list EmbeddedViewRef
}.

(** ** A monad for methods: state of [this] and of the world, a trace of
    calls, and exceptions.  State changes made before a throw persist. *)

Record St (T : Type) : Type := mkSt { self : T; world : World }.

Record Res (T A : Type) : Type := mkRes {
  outcome : Outcome A;
  final : St T;
  calls : list Call
}.

Definition M (T A : Type) : Type := St T -> Res T A.

Definition ret {T A : Type} (a : A) : M T A :=
  fun s => mkRes (Ok a) s [].

Definition bind {T A B : Type} (m : M T A) (k : A -> M T B) : M T B :=
  fun s =>
    match m s with
    | mkRes (Ok a) s1 t1 =>
        match k a s1 with
        | mkRes o s2 t2 => mkRes o s2 (t1 ++ t2)
        end
    | mkRes (Throw msg) s1 t1 => mkRes (Throw msg) s1 t1
    end.

Definition throw {T A : Type} (msg : string) : M T A :=
  fun s => mkRes (Throw msg) s [].

Definition this {T : Type} : M T T :=
  fun s => mkRes (Ok (self s)) s [].

Definition assign {T : Type} (f : T -> T) : M T unit :=
  fun s => mkRes (Ok tt) (mkSt (f (self s)) (world s)) [].

Definition read_world {T : Type} : M T World :=
  fun s => mkRes (Ok (world s)) s [].

Definition change_world {T : Type} (f : World -> World) : M T unit :=
  fun s => mkRes (Ok tt) (mkSt (self s) (f (world s))) [].

Definition call {T : Type} (c : Call) : M T unit :=
  fun s => mkRes (Ok tt) s [c].

Definition lift_outcome {T A : Type} (o : Outcome A) : M T A :=
  match o with
  | Ok a => ret a
  | Throw msg => throw msg
  end.

Declare Scope method_scope.
Delimit Scope method_scope with method.
Notation "x <- m ;; k" := (bind m (fun x => k))
  (at level 61, m at next level, right associativity) : method_scope.
Notation "m ;; k" := (bind m (fun _ => k))
  (at level 61, right associativity) : method_scope.
Notation "'when' b 'then' m" := (if b then m else ret tt)
  (at level 61, b at next level, m at level 61) : method_scope.
Open Scope method_scope.

(** A [next] handler that rxjs runs for a subscription.  An exception thrown
    by the handler does not reach the code that emitted the value: rxjs ends
    the subscription and reports the error on its own.  The result tells
    whether the subscription lives on. *)
Definition subscriber_next {T : Type} (handler : M T unit) : M T bool :=
  fun s =>
    match handler s with
    | mkRes (Ok _) s1 t1 => mkRes (Ok true) s1 t1
    | mkRes (Throw _) s1 t1 => mkRes (Ok false) s1 t1
    end.

Definition returned {A : Type} (o : Outcome A) : bool :=
  match o with
  | Ok _ => true
  | Throw _ => false
  end.

(** [n] times the same method, stopping at the first throw. *)
Fixpoint repeat_method {T : Type} (n : nat) (m : M T unit) : M T unit :=
  match n with
  | O => ret tt
  | S n' => m ;; repeat_method n' m
  end.

(** *** Framework services *)

Definition set_overlaysCreated (n : nat) (w : World) : World :=
  mkWorld (dom w) (activeElement w) n (newPane w) (attachedOverlays w)
          (viewsCreated w) (containerViews w).

Definition set_attachedOverlays (l : list nat) (w : World) : World :=
  mkWorld (dom w) (activeElement w) (overlaysCreated w) (newPane w) l
          (viewsCreated w) (containerViews w).

Definition set_activeElement (e : ElementOrNull) (w : World) : World :=
  mkWorld (dom w) e (overlaysCreated w) (newPane w) (attachedOverlays w)
          (viewsCreated w) (containerViews w).

Definition set_dom (d : Dom) (w : World) : World :=
  mkWorld d (activeElement w) (overlaysCreated w) (newPane w) (attachedOverlays w)
          (viewsCreated w) (containerViews w).

Definition set_views (n : nat) (l : list EmbeddedViewRef) (w : World) : World :=
  mkWorld (dom w) (activeElement w) (overlaysCreated w) (newPane w) (attachedOverlays w)
          n l.

(** [overlayRef.hasAttached()] *)
Definition hasAttached (w : World) (ref : OverlayRef) : bool :=
  existsb (Nat.eqb (overlayId ref)) (attachedOverlays w).

Definition without (n : nat) (l : list nat) : list nat :=
  filter (fun m => negb (Nat.eqb n m)) l.

(** [element.focus()]: the element becomes [document.activeElement]. *)
Definition focus {T : Type} (el : Element) : M T unit :=
  call (element_focus el) ;;
  change_world (set_activeElement (Some el)).

(** ** [CdkPopoverEdit] *)

Module PopoverEdit.

Record CdkPopoverEdit : Type := mkCdkPopoverEdit {
  (** [elementRef.nativeElement] *)
  elementRef : Element;
  template : option TemplateRef;
  context : option Context;
  _colspan : CdkPopoverEditColspan;
  focusTrap : option FocusTrap;
  overlayRef : option OverlayRef;
  (** whether the [destroyed] subject has emitted *)
  destroyed : bool;
  (** live subscriptions to scroll and viewport changes made by
      [_showEditOverlay] *)
  sizeSubscriptions : nat
}.

(** The fields as the class initialises them. *)
Definition new (host : Element) : CdkPopoverEdit :=
  mkCdkPopoverEdit host None None empty_colspan None None false 0.

Definition set_template (t : option TemplateRef) (d : CdkPopoverEdit) :=
  mkCdkPopoverEdit (elementRef d) t (context d) (_colspan d) (focusTrap d)
                   (overlayRef d) (destroyed d) (sizeSubscriptions d).
Definition set_context (c : option Context) (d : CdkPopoverEdit) :=
  mkCdkPopoverEdit (elementRef d) (template d) c (_colspan d) (focusTrap d)
                   (overlayRef d) (destroyed d) (sizeSubscriptions d).
Definition set__colspan (c : CdkPopoverEditColspan) (d : CdkPopoverEdit) :=
  mkCdkPopoverEdit (elementRef d) (template d) (context d) c (focusTrap d)
                   (overlayRef d) (destroyed d) (sizeSubscriptions d).
Definition set_focusTrap (f : option FocusTrap) (d : CdkPopoverEdit) :=
  mkCdkPopoverEdit (elementRef d) (template d) (context d) (_colspan d) f
                   (overlayRef d) (destroyed d) (sizeSubscriptions d).
Definition set_overlayRef (o : option OverlayRef) (d : CdkPopoverEdit) :=
  mkCdkPopoverEdit (elementRef d) (template d) (context d) (_colspan d) (focusTrap d)
                   o (destroyed d) (sizeSubscriptions d).
Definition set_destroyed (b : bool) (d : CdkPopoverEdit) :=
  mkCdkPopoverEdit (elementRef d) (template d) (context d) (_colspan d) (focusTrap d)
                   (overlayRef d) b (sizeSubscriptions d).
Definition set_sizeSubscriptions (n : nat) (d : CdkPopoverEdit) :=
  mkCdkPopoverEdit (elementRef d) (template d) (context d) (_colspan d) (focusTrap d)
                   (overlayRef d) (destroyed d) n.

Definition Method (A : Type) : Type := M CdkPopoverEdit A.

(** *** The overlay service and the overlay reference *)

(** [overlay.create(config)]: a new overlay with its own pane element. *)
Definition overlay_create_ (panelClass : string) (strategy : PositionStrategy)
  : Method OverlayRef :=
  w <- read_world ;;
  let ref := mkOverlayRef (overlaysCreated w) (newPane w (overlaysCreated w)) in
  call (overlay_create panelClass strategy ref) ;;
  change_world (set_overlaysCreated (S (overlaysCreated w))) ;;
  ret ref.

(** What the subscribers of [overlayRef.detachments()] do when it emits:
    the callback registered by [_createEditOverlay], then the end of the
    size subscriptions ([takeUntil(this.overlayRef!.detachments())]). *)
Definition detachments_next : Method unit :=
  me <- this ;;
  call (doneEditingCell (elementRef me)) ;;
  assign (set_sizeSubscriptions 0).

(** [overlayRef.attach(portal)]: an overlay that has a portal attached
    refuses a second one with an exception. *)
Definition overlayRef_attach_ (ref : OverlayRef) (tpl : option TemplateRef)
    (implicit : option Context) : Method unit :=
  call (overlayRef_attach ref tpl implicit) ;;
  w <- read_world ;;
  if hasAttached w ref then throw Error_portal_attached
  else
    change_world (set_attachedOverlays (overlayId ref :: without (overlayId ref) (attachedOverlays w))).

(** [overlayRef.detach()]: detaches and notifies only if attached. *)
Definition overlayRef_detach_ (ref : OverlayRef) : Method unit :=
  call (overlayRef_detach ref) ;;
  w <- read_world ;;
  when hasAttached w ref then
    (change_world (set_attachedOverlays (without (overlayId ref) (attachedOverlays w))) ;;
     detachments_next).

(** [overlayRef.dispose()] *)
Definition overlayRef_dispose_ (ref : OverlayRef) : Method unit :=
  call (overlayRef_dispose ref) ;;
  w <- read_world ;;
  when hasAttached w ref then
    (change_world (set_attachedOverlays (without (overlayId ref) (attachedOverlays w))) ;;
     detachments_next).

(** *** The methods of the class *)

Definition _getOverlayCells_m (K : Constants) : Method (list ElementOrNull) :=
  me <- this ;;
  w <- read_world ;;
  lift_outcome (_getOverlayCells K (dom w) (elementRef me) (_colspan me)).

Definition _getPositionStrategy (K : Constants) : Method PositionStrategy :=
  _getOverlayCells_m K.

Definition _updateOverlaySize (K : Constants) : Method unit :=
  me <- this ;;
  match overlayRef me with
  | None => throw TypeError_null
  | Some ref =>
      cells <- _getOverlayCells_m K ;;
      call (overlayRef_updateSize ref cells)
  end.

(** [set colspan(value)] *)
Definition set_colspan (K : Constants) (value : CdkPopoverEditColspan) : Method unit :=
  assign (set__colspan value) ;;
  me <- this ;;
  match overlayRef me with
  | Some ref =>
      strategy <- _getPositionStrategy K ;;
      call (overlayRef_updatePositionStrategy ref strategy) ;;
      w <- read_world ;;
      when hasAttached w ref then _updateOverlaySize K
  | None => ret tt
  end.

(** [get colspan()] *)
Definition colspan : Method CdkPopoverEditColspan :=
  me <- this ;;
  ret (_colspan me).

Definition ngOnDestroy : Method unit :=
  call destroyed_next ;;
  assign (fun d => set_sizeSubscriptions 0 (set_destroyed true d)) ;;
  call destroyed_complete ;;
  me <- this ;;
  match overlayRef me with
  | Some ref => overlayRef_dispose_ ref
  | None => ret tt
  end.

Definition _createEditOverlay (K : Constants) : Method unit :=
  strategy <- _getPositionStrategy K ;;
  ref <- overlay_create_ (EDIT_PANE_CLASS K) strategy ;;
  assign (set_overlayRef (Some ref)) ;;
  call (focusTrapFactory_create (overlayElement ref)) ;;
  assign (set_focusTrap (Some (mkFocusTrap (overlayElement ref)))) ;;
  call (setAttribute (overlayElement ref) "aria-role" "dialog") ;;
  call (overlayRef_detachments_subscribe ref).

(** The subscriber of the scroll and viewport changes set up by
    [_showEditOverlay]: an exception of [_updateOverlaySize] ends the
    subscription it was thrown in. *)
Definition size_subscriber (K : Constants) : Method unit :=
  alive <- subscriber_next (_updateOverlaySize K) ;;
  when negb alive then
    assign (fun d => set_sizeSubscriptions (pred (sizeSubscriptions d)) d).

Definition _showEditOverlay (K : Constants) : Method unit :=
  me <- this ;;
  match overlayRef me with
  | None => throw TypeError_null
  | Some ref =>
      overlayRef_attach_ ref (template me) (context me) ;;
      match focusTrap me with
      | None => throw TypeError_null
      | Some trap =>
          call (focusInitialElementWhenReady trap) ;;
          (* [takeUntil(this.overlayRef!.detachments())] *)
          call (overlayRef_detachments ref) ;;
          (* [startWith(null)] makes the new subscription update the size
             at once, unless [takeUntil(this.destroyed)] ends it first. *)
          when negb (destroyed me) then
            (assign (fun d => set_sizeSubscriptions (S (sizeSubscriptions d)) d) ;;
             size_subscriber K)
      end
  end.

Definition _maybeReturnFocusToCell (K : Constants) : Method unit :=
  me <- this ;;
  w <- read_world ;;
  let pane := closest (dom w) (activeElement w) (EDIT_PANE_SELECTOR K) in
  match overlayRef me with
  | None => throw TypeError_null
  | Some ref =>
      when same_element pane (Some (overlayElement ref)) then
        focus (elementRef me)
  end.

Definition is_some {A : Type} (o : option A) : bool :=
  match o with Some _ => true | None => false end.

(** The subscriber of [editEventDispatcher.editingCell(...)] set up by
    [_startListeningToEditEvents]. *)
Definition editingCell_next (K : Constants) (open : bool) : Method unit :=
  me <- this ;;
  if open && is_some (template me) then
    (when negb (is_some (overlayRef me)) then _createEditOverlay K) ;;
    _showEditOverlay K
  else
    match overlayRef me with
    | Some ref =>
        _maybeReturnFocusToCell K ;;
        overlayRef_detach_ ref
    | None => ret tt
    end.

(** *** The directive in its environment *)

Inductive Input : Type :=
| EditingCell (open : bool)           (* emission of [editingCell(host)] *)
| SetTemplate (t : option TemplateRef)
| SetContext (c : option Context)
| SetColspan (c : CdkPopoverEditColspan)
| ViewportChanged                      (* scroll or viewport change *)
| DomChanged (d : Dom)
| FocusMoved (e : ElementOrNull).

Definition react (K : Constants) (i : Input) : Method unit :=
  me <- this ;;
  match i with
  | EditingCell open =>
      (* [takeUntil(this.destroyed)] *)
      when negb (destroyed me) then editingCell_next K open
  | SetTemplate t => assign (set_template t)
  | SetContext c => assign (set_context c)
  | SetColspan c => set_colspan K c
  | ViewportChanged => repeat_method (sizeSubscriptions me) (size_subscriber K)
  | DomChanged d => change_world (set_dom d)
  | FocusMoved e => change_world (set_activeElement e)
  end.

Definition is_edit_event (i : Input) : bool :=
  match i with
  | EditingCell _ => true
  | _ => false
  end.

(** The inputs one after the other.  An exception thrown while reacting to
    an input does not undo what was done before it.  [listening] tells
    whether the subscription of [_startListeningToEditEvents] is live: when
    its subscriber throws, rxjs ends it, and the later edit events are not
    delivered.  An exception of the colspan setter goes to its caller and
    ends no subscription. *)
Fixpoint run_from (K : Constants) (listening : bool) (inputs : list Input)
    (s : St CdkPopoverEdit) : St CdkPopoverEdit * bool * list Call :=
  match inputs with
  | [] => (s, listening, [])
  | i :: rest =>
      if is_edit_event i && negb listening then run_from K listening rest s
      else
        let r := react K i s in
        let listening' := if is_edit_event i then returned (outcome r) else listening in
        let '(s', l', cs) := run_from K listening' rest (final r) in
        (s', l', calls r ++ cs)
  end.

(** The life of a directive starts with the subscription live. *)
Definition run (K : Constants) (inputs : list Input) (s : St CdkPopoverEdit)
  : St CdkPopoverEdit * list Call :=
  let '(s', _, cs) := run_from K true inputs s in
  (s', cs).


(** A whole life: the inputs, then [ngOnDestroy]. *)
Definition lifetime (K : Constants) (inputs : list Input) (s : St CdkPopoverEdit)
  : list Call :=
  let '(s', cs) := run K inputs s in
  cs ++ calls (ngOnDestroy s').

End PopoverEdit.

(** ** [CdkRowHoverContent] *)

Module RowHoverContent.

Record CdkRowHoverContent : Type := mkCdkRowHoverContent {
  elementRef : Element;
  templateRef : TemplateRef;
  viewRef : option EmbeddedViewRef;
  destroyed : bool
}.

Definition new (host : Element) (tpl : TemplateRef) : CdkRowHoverContent :=
  mkCdkRowHoverContent host tpl None false.

Definition set_viewRef (v : option EmbeddedViewRef) (d : CdkRowHoverContent) :=
  mkCdkRowHoverContent (elementRef d) (templateRef d) v (destroyed d).
Definition set_destroyed (b : bool) (d : CdkRowHoverContent) :=
  mkCdkRowHoverContent (elementRef d) (templateRef d) (viewRef d) b.

Definition Method (A : Type) : Type := M CdkRowHoverContent A.

(** *** The view container *)

(** [viewContainerRef.createEmbeddedView(templateRef, {})]: a new view,
    appended to the container. *)
Definition createEmbeddedView_ (tpl : TemplateRef) : Method EmbeddedViewRef :=
  w <- read_world ;;
  let v := viewsCreated w in
  call (createEmbeddedView tpl v) ;;
  change_world (set_views (S v) (containerViews w ++ [v])) ;;
  ret v.

(** [viewContainerRef.insert(viewRef)]: the view goes to the end. *)
Definition viewContainerRef_insert_ (v : EmbeddedViewRef) : Method unit :=
  call (viewContainerRef_insert v) ;;
  w <- read_world ;;
  change_world (set_views (viewsCreated w) (without v (containerViews w) ++ [v])).

(** [viewContainerRef.indexOf(viewRef)] *)
Definition viewContainerRef_indexOf (w : World) (v : EmbeddedViewRef) : Z :=
  JsArray.indexOf Nat.eqb (containerViews w) v.

Definition remove_at {A : Type} (i : Z) (l : list A) : list A :=
  if (0 <=? i) && (i <? Z.of_nat (List.length l)) then
    firstn (Z.to_nat i) l ++ skipn (S (Z.to_nat i)) l
  else l.

(** [viewContainerRef.detach(index)] *)
Definition viewContainerRef_detach_ (i : Z) : Method unit :=
  call (viewContainerRef_detach i) ;;
  w <- read_world ;;
  change_world (set_views (viewsCreated w) (remove_at i (containerViews w))).

(** [viewRef.destroy()] *)
Definition viewRef_destroy_ (v : EmbeddedViewRef) : Method unit :=
  call (viewRef_destroy v) ;;
  w <- read_world ;;
  change_world (set_views (viewsCreated w) (without v (containerViews w))).

(** *** The methods of the class *)

Definition ngOnDestroy : Method unit :=
  call destroyed_next ;;
  assign (set_destroyed true) ;;
  call destroyed_complete ;;
  me <- this ;;
  match viewRef me with
  | Some v => viewRef_destroy_ v
  | None => ret tt
  end.

(** The subscriber of [editEventDispatcher.hoveringOnRow(...)] set up by
    [_listenForHoverEvents]. *)
Definition hoveringOnRow_next (isHovering : bool) : Method unit :=
  me <- this ;;
  if isHovering then
    match viewRef me with
    | None =>
        v <- createEmbeddedView_ (templateRef me) ;;
        assign (set_viewRef (Some v))
    | Some v => viewContainerRef_insert_ v
    end
  else
    match viewRef me with
    | Some v =>
        w <- read_world ;;
        viewContainerRef_detach_ (viewContainerRef_indexOf w v)
    | None => ret tt
    end.

(** An emission of [hoveringOnRow(host)], through [takeUntil(this.destroyed)]. *)
Definition react (isHovering : bool) : Method unit :=
  me <- this ;;
  when negb (destroyed me) then hoveringOnRow_next isHovering.

Fixpoint run (hovers : list bool) (s : St CdkRowHoverContent)
  : St CdkRowHoverContent * list Call :=
  match hovers with
  | [] => (s, [])
  | h :: rest =>
      let r := react h s in
      let '(s', cs) := run rest (final r) in
      (s', calls r ++ cs)
  end.

(** A whole life: the hover events, then [ngOnDestroy]. *)
Definition lifetime (hovers : list bool) (s : St CdkRowHoverContent) : list Call :=
  let '(s', cs) := run hovers s in
  cs ++ calls (ngOnDestroy s').

End RowHoverContent.

(** ** [CdkEditOpen] and [CdkEditOpenButton] *)

Module EditOpen.

Record CdkEditOpen : Type := mkCdkEditOpen { elementRef : Element }.

Definition openEdit (K : Constants) (evt : Event) : M CdkEditOpen unit :=
  me <- this ;;
  w <- read_world ;;
  call (editing_next (closest (dom w) (Some (elementRef me)) (CELL_SELECTOR K))) ;;
  call (stopPropagation evt).

End EditOpen.

Module EditOpenButton.

(** [class CdkEditOpenButton extends CdkEditOpen {}]: the same fields and
    the inherited [openEdit]. *)
Definition CdkEditOpenButton : Type := EditOpen.CdkEditOpen.

Definition openEdit (K : Constants) (evt : Event) : M CdkEditOpenButton unit :=
  EditOpen.openEdit K evt.

End EditOpenButton.

(** ** [CdkEditable] *)

Module Editable.

Record CdkEditable : Type := mkCdkEditable {
  elementRef : Element;
  destroyed : bool
}.

Definition set_destroyed (b : bool) (d : CdkEditable) :=
  mkCdkEditable (elementRef d) b.

(** The events of the table element heard by [_listenForTableEvents] whose
    subscriptions act at once.  (The mousemove subscription goes through
    [debounceTime(DEFAULT_MOUSE_MOVE_DELAY_MS)] and acts on a timer.) *)
Inductive TableEvent : Type :=
| mouseover (target : ElementOrNull)
| mouseleave (target : ElementOrNull)
| keyup (key : string) (target : ElementOrNull)
| keydown (key : string) (target : ElementOrNull).

Definition DEFAULT_MOUSE_MOVE_DELAY_MS : Z := 30.

(** [map((event: UIEvent) => closest(event.target, selector))] *)
Definition toClosest (w : World) (selector : string) (target : ElementOrNull)
  : ElementOrNull :=
  closest (dom w) target selector.

Definition ngOnDestroy : M CdkEditable unit :=
  call destroyed_next ;;
  assign (set_destroyed true) ;;
  call destroyed_complete.

(** One event through the pipelines of [_listenForTableEvents]. *)
Definition dispatch (K : Constants) (ev : TableEvent) : M CdkEditable unit :=
  me <- this ;;
  w <- read_world ;;
  (* [takeUntil(this.destroyed)] *)
  when negb (destroyed me) then
    match ev with
    | mouseover target =>
        call (hovering_next (toClosest w (ROW_SELECTOR K) target))
    | mouseleave _ =>
        call (hovering_next None)
    | keyup key target =>
        (* [filter(event => event.key === 'Enter')] *)
        when String.eqb key "Enter" then
          call (editing_next (toClosest w (CELL_SELECTOR K) target))
    | keydown key target =>
        call (keyObserver_next key target)
    end.

End Editable.

(** ** Vocabulary of the properties *)

(** The calls on the overlay service and on overlay references. *)
Definition is_overlay_call (c : Call) : bool :=
  match c with
  | overlay_create _ _ _
  | overlayRef_updatePositionStrategy _ _
  | overlayRef_updateSize _ _
  | overlayRef_attach _ _ _
  | overlayRef_detach _
  | overlayRef_dispose _
  | overlayRef_detachments_subscribe _
  | overlayRef_detachments _ => true
  | _ => false
  end.

Definition is_create (c : Call) : bool :=
  match c with overlay_create _ _ _ => true | _ => false end.
Definition is_attach (c : Call) : bool :=
  match c with overlayRef_attach _ _ _ => true | _ => false end.
Definition is_detach (c : Call) : bool :=
  match c with overlayRef_detach _ => true | _ => false end.
Definition is_updateSize (c : Call) : bool :=
  match c with overlayRef_updateSize _ _ => true | _ => false end.
Definition is_dispose (c : Call) : bool :=
  match c with overlayRef_dispose _ => true | _ => false end.
Definition is_focus (c : Call) : bool :=
  match c with element_focus _ => true | _ => false end.
Definition is_editing_next (c : Call) : bool :=
  match c with editing_next _ => true | _ => false end.

(** How many calls of a kind a trace holds. *)
Definition count (p : Call -> bool) (t : list Call) : nat :=
  List.length (filter p t).

(** Whether the focused element lies inside the edit pane of the overlay,
    as [_maybeReturnFocusToCell] tests it; without an overlay there is no
    pane to be in. *)
Definition focus_in_pane (K : Constants) (w : World) (o : option OverlayRef) : bool :=
  match o with
  | Some ref =>
      same_element (closest (dom w) (activeElement w) (EDIT_PANE_SELECTOR K))
                   (Some (overlayElement ref))
  | None => false
  end.

(** *** A resource held by a directive

    Both [CdkPopoverEdit] (its overlay) and [CdkRowHoverContent] (its view)
    hold at most one framework resource in an optional field.  [is_make]
    and [is_release] recognise the calls that create and that dispose of
    such a resource, and [made r c] says that the call [c] created [r]. *)
Section Resource.

Variable R : Type.
Variables is_make is_release : Call -> bool.
Variable made : R -> Call -> Prop.



End Resource.



(** The range a colspan asks for: [result] is a run of [rowCells] made of
    [b] cells, then [cell], then [a] cells. *)
Definition colspan_range (rowCells : list Element) (cell : Element) (b a : nat)
    (result : list ElementOrNull) : Prop :=
  exists front pre post back,
    rowCells = front ++ pre ++ cell :: post ++ back /\
    List.length pre = b /\ List.length post = a /\
    result = map Some (pre ++ cell :: post).

Definition is_hovering_next (c : Call) : bool :=
  match c with hovering_next _ => true | _ => false end.
Definition is_keyObserver_next (c : Call) : bool :=
  match c with keyObserver_next _ _ => true | _ => false end.

(** A trace of [updateSize] calls on the overlay held, if any. *)
Definition size_calls (o : option OverlayRef) (t : list Call) : Prop :=
  match o with
  | Some ref => Forall (fun c => exists cells, c = overlayRef_updateSize ref cells) t
  | None => t = []
  end.

(** A call that is not the creation of an overlay and that, if it is made
    on an overlay reference, is made on [ref]. *)
Definition on_overlay (ref : OverlayRef) (c : Call) : Prop :=
  match c with
  | overlay_create _ _ _ => False
  | overlayRef_updatePositionStrategy r _
  | overlayRef_updateSize r _
  | overlayRef_attach r _ _
  | overlayRef_detach r
  | overlayRef_dispose r
  | overlayRef_detachments_subscribe r
  | overlayRef_detachments r => r = ref
  | _ => True
  end.

(** A trace in which no overlay call comes before the creation of the
    overlay held in the field, and every later one is made on it. *)
Definition creation_first (o : option OverlayRef) (t : list Call) : Prop :=
  match o with
  | None => filter is_overlay_call t = []
  | Some ref =>
      exists pre cls ps post,
        t = pre ++ overlay_create cls ps ref :: post /\
        filter is_overlay_call pre = [] /\
        Forall (on_overlay ref) post
  end.

(** What holds of a live popover directive between two inputs: the focus
    trap is the one made for the pane of the overlay, and the size is
    followed only while the overlay is attached. *)
Definition consistent (s : St PopoverEdit.CdkPopoverEdit) : Prop :=
  PopoverEdit.destroyed (self s) = false /\
  match PopoverEdit.overlayRef (self s) with
  | None =>
      PopoverEdit.focusTrap (self s) = None /\
      PopoverEdit.sizeSubscriptions (self s) = 0%nat
  | Some ref =>
      PopoverEdit.focusTrap (self s) = Some (mkFocusTrap (overlayElement ref)) /\
      (PopoverEdit.sizeSubscriptions (self s) <> 0%nat -> hasAttached (world s) ref = true)
  end.

(** The overlay that an open shows: the one held, or else the one the
    overlay service makes next. *)
Definition shown_overlay (s : St PopoverEdit.CdkPopoverEdit) : OverlayRef :=
  match PopoverEdit.overlayRef (self s) with
  | Some ref => ref
  | None =>
      mkOverlayRef (overlaysCreated (world s))
                   (newPane (world s) (overlaysCreated (world s)))
  end.

(** The cell range of the directive, on the page as it is. *)
Definition current_cells (K : Constants) (s : St PopoverEdit.CdkPopoverEdit)
  : Outcome (list ElementOrNull) :=
  _getOverlayCells K (dom (world s)) (PopoverEdit.elementRef (self s))
                   (PopoverEdit._colspan (self s)).

(** [l] is a run of consecutive elements of [whole]. *)
Definition run_of {A : Type} (l whole : list A) : Prop :=
  exists front back, whole = front ++ l ++ back.

(** The views of the container were all made before now. *)
Definition views_known (w : World) : Prop :=
  Forall (fun v => (v < viewsCreated w)%nat) (containerViews w).

(** The container of a row hover directive holds the views [l0] that are
    not its own, followed by its own view [v] if [shown]; as long as the
    directive has no view, [v] is the one the container will make next. *)
Definition shows (l0 : list EmbeddedViewRef) (v : EmbeddedViewRef) (shown : bool)
    (s : St RowHoverContent.CdkRowHoverContent) : Prop :=
  RowHoverContent.destroyed (self s) = false /\
  NoDup l0 /\
  ~ In v l0 /\
  containerViews (world s) = l0 ++ (if shown then [v] else []) /\
  match RowHoverContent.viewRef (self s) with
  | Some v' => v' = v
  | None => shown = false /\ v = viewsCreated (world s)
  end.

(** ** Example pages *)

Module Examples.

Definition K : Constants := mkConstants "td" "tr" ".cdk-edit-pane" "cdk-edit-pane".

(** A table row (element 10) with the three cells 1, 2 and 3; element 50
    is the pane of an overlay and element 51 an input inside it. *)
Definition closest0 (e : ElementOrNull) (selector : string) : ElementOrNull :=
  match e with
  | None => None
  | Some n =>
      if String.eqb selector "td" then
        (if (Nat.leb 1 n && Nat.leb n 3)%bool then Some n else None)
      else if String.eqb selector "tr" then
        (if ((Nat.leb 1 n && Nat.leb n 3) || Nat.eqb n 10)%bool then Some 10%nat else None)
      else if String.eqb selector ".cdk-edit-pane" then
        (if (Nat.eqb n 50 || Nat.eqb n 51)%bool then Some 50%nat else None)
      else None
  end.

Definition querySelectorAll0 (e : Element) (selector : string) : list Element :=
  if (Nat.eqb e 10 && String.eqb selector "td")%bool then [1; 2; 3]%nat else [].

Definition dom0 : Dom := mkDom closest0 querySelectorAll0.

Definition world0 : World := mkWorld dom0 None 0 (fun n => (50 + n)%nat) [] 0 [].

(** The directive on the first, on the middle cell, and on an element
    outside every cell. *)
Definition first_cell : Element := 1%nat.
Definition middle_cell : Element := 2%nat.
Definition outside : Element := 99%nat.

Definition overlay0 : OverlayRef := mkOverlayRef 0 50%nat.

(** A popover directive on the middle cell whose overlay exists and is
    attached, with the focus on the input inside the pane. *)
Definition opened : St PopoverEdit.CdkPopoverEdit :=
  mkSt (PopoverEdit.mkCdkPopoverEdit middle_cell (Some 7%nat) None empty_colspan
          (Some (mkFocusTrap 50%nat)) (Some overlay0) false 1)
       (mkWorld dom0 (Some 51%nat) 1 (fun n => (50 + n)%nat) [0%nat] 0 []).

(** The same directive after its template was set to null. *)
Definition opened_no_template : St PopoverEdit.CdkPopoverEdit :=
  mkSt (PopoverEdit.set_template None (self opened)) (world opened).

(** A fresh popover directive on the middle cell, with a template. *)
Definition fresh : St PopoverEdit.CdkPopoverEdit :=
  mkSt (PopoverEdit.set_template (Some 7%nat) (PopoverEdit.new middle_cell)) world0.


(** A popover directive with a template and the colspan [{before: 1}] on an
    element that is in no row. *)
Definition misplaced : St PopoverEdit.CdkPopoverEdit :=
  mkSt (PopoverEdit.mkCdkPopoverEdit outside (Some 7%nat) None (mkColspan (Some 1) None)
          None None false 0)
       world0.

(** A row hover directive that retains the view 0, in a container that holds
    it before a view 1 of someone else. *)
Definition hovered : St RowHoverContent.CdkRowHoverContent :=
  mkSt (RowHoverContent.mkCdkRowHoverContent 10%nat 7%nat (Some 0%nat) false)
       (mkWorld dom0 None 0 (fun n => (50 + n)%nat) [] 2 [0%nat; 1%nat]).

End Examples.

(** * Properties *)

(** ** Array lemmas *)

Section ArrayFacts.

Context {A : Type}.
Variable eqb : A -> A -> bool.

Lemma indexOf_from_first (pre post : list A) (x : A) (i : Z) :
  eqb x x = true ->
  (forall y, In y pre -> eqb y x = false) ->
  JsArray.indexOf_from eqb (pre ++ x :: post) x i = i + Z.of_nat (List.length pre).
Proof.
  intros Hx. revert i.
  induction pre as [|y pre IH]; intros i Hpre; simpl.
  - rewrite Hx. lia.
  - rewrite (Hpre y (or_introl eq_refl)).
    rewrite IH by (intros z Hz; apply Hpre; now right).
    lia.
Qed.

Lemma indexOf_first (pre post : list A) (x : A) :
  eqb x x = true ->
  (forall y, In y pre -> eqb y x = false) ->
  JsArray.indexOf eqb (pre ++ x :: post) x = Z.of_nat (List.length pre).
Proof.
  intros Hx Hpre. unfold JsArray.indexOf.
  now rewrite indexOf_from_first.
Qed.

(** A slice that starts at most [|pre|] cells before [x] and ends after
    it: the tail of [pre], then [x], then the head of [post]. *)
Lemma slice_around (pre post : list A) (x : A) (b a : nat) :
  (b <= List.length pre)%nat ->
  JsArray.slice (pre ++ x :: post)
    (Z.of_nat (List.length pre) - Z.of_nat b)
    (Z.of_nat (List.length pre) + Z.of_nat a + 1)
  = skipn (List.length pre - b) pre ++ x :: firstn a post.
Proof.
  intros Hb. unfold JsArray.slice, JsArray.relative_index.
  rewrite length_app. simpl List.length.
  destruct (Z.ltb_spec (Z.of_nat (List.length pre) - Z.of_nat b) 0) as [Hneg|_]; [lia|].
  destruct (Z.ltb_spec (Z.of_nat (List.length pre) + Z.of_nat a + 1) 0) as [Hneg|_]; [lia|].
  rewrite (Z.min_l (Z.of_nat (List.length pre) - Z.of_nat b)) by lia.
  replace (Z.to_nat (Z.of_nat (List.length pre) - Z.of_nat b))
    with (List.length pre - b)%nat by lia.
  rewrite skipn_app.
  replace (List.length pre - b - List.length pre)%nat with 0%nat by lia.
  simpl skipn.
  set (tail := skipn (List.length pre - b) pre).
  assert (Htail : List.length tail = b) by (unfold tail; rewrite length_skipn; lia).
  rewrite firstn_app, Htail.
  rewrite firstn_all2 by lia.
  f_equal.
  destruct (Nat.le_gt_cases a (List.length post)) as [Ha|Ha].
  - rewrite Z.min_l by lia.
    replace (Z.to_nat (Z.of_nat (List.length pre) + Z.of_nat a + 1
                       - (Z.of_nat (List.length pre) - Z.of_nat b)) - b)%nat
      with (S a) by lia.
    reflexivity.
  - rewrite Z.min_r by lia.
    replace (Z.to_nat (Z.of_nat (List.length pre + S (List.length post))
                       - (Z.of_nat (List.length pre) - Z.of_nat b)) - b)%nat
      with (S (List.length post)) by lia.
    simpl. f_equal.
    now rewrite !firstn_all2 by lia.
Qed.

End ArrayFacts.

Lemma same_element_refl (e : ElementOrNull) : same_element e e = true.
Proof. destruct e; simpl; [apply Nat.eqb_refl | reflexivity]. Qed.

Lemma same_element_Some (x y : Element) :
  same_element (Some x) (Some y) = true <-> x = y.
Proof. simpl. apply Nat.eqb_eq. Qed.

Lemma or_zero_falsy (n : option Z) : truthy n = false -> or_zero n = 0.
Proof.
  destruct n as [v|]; simpl; [|reflexivity].
  destruct (v =? 0); [reflexivity | discriminate].
Qed.

Lemma or_zero_truthy (n : option Z) : or_zero n <> 0 -> truthy n = true.
Proof.
  destruct n as [v|]; simpl; [|congruence].
  destruct (Z.eqb_spec v 0); simpl; congruence.
Qed.

(** ** The cell range of a colspan *)

Section CellRange.

Variable K : Constants.
Variable dom : Dom.
Variable host : Element.

(** With both fields falsy the row is not even looked up. *)
Lemma getOverlayCells_unset (c : CdkPopoverEditColspan) :
  truthy (before c) = false -> truthy (after c) = false ->
  _getOverlayCells K dom host c = Ok [closest dom (Some host) (CELL_SELECTOR K)].
Proof.
  intros Hb Ha. unfold _getOverlayCells. now rewrite Hb, Ha.
Qed.

(** The general shape of the result once the cell is found in its row. *)
Lemma getOverlayCells_slice (c : CdkPopoverEditColspan) (cell row : Element)
    (pre post : list Element) (b a : nat) :
  closest dom (Some host) (CELL_SELECTOR K) = Some cell ->
  closest dom (Some host) (ROW_SELECTOR K) = Some row ->
  querySelectorAll dom row (CELL_SELECTOR K) = pre ++ cell :: post ->
  ~ In cell pre ->
  or_zero (before c) = Z.of_nat b ->
  or_zero (after c) = Z.of_nat a ->
  (b <= List.length pre)%nat ->
  _getOverlayCells K dom host c
  = Ok (map Some (skipn (List.length pre - b) pre ++ cell :: firstn a post)).
Proof.
  intros Hcell Hrow Hcells Hfirst Hb Ha Hle.
  destruct (negb (truthy (before c)) && negb (truthy (after c))) eqn:Hunset.
  - apply andb_prop in Hunset as [H1 H2].
    apply negb_true_iff in H1, H2.
    rewrite getOverlayCells_unset by assumption.
    rewrite (or_zero_falsy _ H1) in Hb. rewrite (or_zero_falsy _ H2) in Ha.
    assert (b = 0%nat) by lia. assert (a = 0%nat) by lia. subst b a.
    rewrite Nat.sub_0_r, skipn_all. simpl. now rewrite Hcell.
  - unfold _getOverlayCells. rewrite Hunset, Hrow, Hcell, Hcells.
    rewrite map_app. simpl map.
    rewrite indexOf_first.
    + rewrite Hb, Ha, length_map.
      rewrite <- (length_map Some pre) at 1 2.
      rewrite slice_around by (rewrite length_map; exact Hle).
      rewrite length_map.
      now rewrite map_app, skipn_map, firstn_map.
    + apply same_element_refl.
    + intros y Hy. apply in_map_iff in Hy as [z [<- Hz]].
      simpl. apply Nat.eqb_neq. intros ->. contradiction.
Qed.

End CellRange.

(** C1 (amended).  When the origin cell is one of its row's cells and the
    colspan asks for [b] cells before it, with [b] at most the number of
    cells the row has before the origin cell, and for [a] cells after it,
    [_getOverlayCells] returns a contiguous run of the row's cells in row
    order: the [b] cells immediately before the origin cell, the origin cell,
    and the cells immediately after it, [a] of them or as many as the row
    has.  When neither [before] nor [after] is set (or both are falsy) the
    result is the singleton list holding the origin cell. *)
Theorem getOverlayCells_colspan_range
    (K : Constants) (dom : Dom) (host : Element) (c : CdkPopoverEditColspan)
    (cell row : Element) (pre post : list Element) (b a : nat) :
  closest dom (Some host) (CELL_SELECTOR K) = Some cell ->
  closest dom (Some host) (ROW_SELECTOR K) = Some row ->
  querySelectorAll dom row (CELL_SELECTOR K) = pre ++ cell :: post ->
  ~ In cell pre ->
  or_zero (before c) = Z.of_nat b ->
  or_zero (after c) = Z.of_nat a ->
  (b <= List.length pre)%nat ->
  exists r,
    _getOverlayCells K dom host c = Ok r /\
    colspan_range (pre ++ cell :: post) cell b (Nat.min a (List.length post)) r /\
    r = map Some (skipn (List.length pre - b) pre ++ cell :: firstn a post) /\
    (truthy (before c) = false -> truthy (after c) = false -> r = [Some cell]).
Proof.
  intros Hcell Hrow Hcells Hfirst Hb Ha Hle.
  eexists. split; [|split; [|split]].
  - eapply getOverlayCells_slice; eassumption.
  - exists (firstn (List.length pre - b) pre), (skipn (List.length pre - b) pre),
      (firstn a post), (skipn a post).
    repeat split.
    + rewrite (app_assoc (firstn _ pre)), firstn_skipn.
      now rewrite firstn_skipn.
    + rewrite length_skipn. lia.
    + apply length_firstn.
  - reflexivity.
  - intros Hfb Hfa.
    rewrite (or_zero_falsy _ Hfb) in Hb. rewrite (or_zero_falsy _ Hfa) in Ha.
    assert (b = 0%nat) by lia. assert (a = 0%nat) by lia. subst b a.
    now rewrite Nat.sub_0_r, skipn_all.
Qed.

(** C8.  The colspan [{before: 0, after: 0}] and the empty colspan [{}] give
    the same result for every origin cell and every page: the singleton list
    holding the closest cell of the host, without looking at the row.  So
    setting the one or the other through the colspan input makes the same
    calls, with the same outcome, and leaves the same world. *)
Theorem getOverlayCells_zero_colspan_is_empty_colspan
    (K : Constants) (dom : Dom) (host : Element) :
  _getOverlayCells K dom host (mkColspan (Some 0) (Some 0))
  = _getOverlayCells K dom host empty_colspan /\
  _getOverlayCells K dom host empty_colspan
  = Ok [closest dom (Some host) (CELL_SELECTOR K)] /\
  (forall s : St PopoverEdit.CdkPopoverEdit,
     let zero := PopoverEdit.set_colspan K (mkColspan (Some 0) (Some 0)) s in
     let empty := PopoverEdit.set_colspan K empty_colspan s in
     calls zero = calls empty /\
     outcome zero = outcome empty /\
     world (final zero) = world (final empty)).
Proof.
  split; [reflexivity | split; [reflexivity|]].
  intros [[h tpl ctx col ft ov d n] w].
  unfold PopoverEdit.set_colspan, PopoverEdit._updateOverlaySize,
    PopoverEdit._getPositionStrategy, PopoverEdit._getOverlayCells_m,
    lift_outcome, bind, ret, throw, this, assign, read_world, call.
  simpl.
  destruct ov as [ref|]; simpl; [|repeat split].
  destruct (hasAttached w ref); repeat split.
Qed.

(** ** Opening from a click *)

(** C2.  [openEdit], of [CdkEditOpen] and as inherited by
    [CdkEditOpenButton], emits the closest cell of the host element on the
    editing stream and then calls [stopPropagation] on the event; nothing
    else is done and no exception is raised. *)
Theorem openEdit_emits_closest_cell_and_stops_propagation
    (K : Constants) (evt : Event) (s : St EditOpen.CdkEditOpen) :
  let cell := closest (dom (world s)) (Some (EditOpen.elementRef (self s))) (CELL_SELECTOR K) in
  calls (EditOpen.openEdit K evt s) = [editing_next cell; stopPropagation evt] /\
  outcome (EditOpen.openEdit K evt s) = Ok tt /\
  final (EditOpen.openEdit K evt s) = s /\
  EditOpenButton.openEdit K evt s = EditOpen.openEdit K evt s.
Proof.
  destruct s as [me w]. repeat split.
Qed.

(** C9.  When the host element has no enclosing cell, [openEdit] emits
    null on the editing stream and still calls [stopPropagation]. *)
Theorem openEdit_without_cell_emits_null
    (K : Constants) (evt : Event) (s : St EditOpen.CdkEditOpen) :
  closest (dom (world s)) (Some (EditOpen.elementRef (self s))) (CELL_SELECTOR K) = None ->
  calls (EditOpen.openEdit K evt s) = [editing_next None; stopPropagation evt] /\
  outcome (EditOpen.openEdit K evt s) = Ok tt.
Proof.
  intros Hnone. destruct s as [me w]. simpl in Hnone.
  unfold EditOpen.openEdit, bind, this, read_world, call. simpl.
  rewrite Hnone. split; reflexivity.
Qed.

(** ** Keys on the table *)

(** C4.  A keyup event heard by [CdkEditable] before its destruction puts
    a value on the editing stream exactly when its key is ["Enter"], and the
    value is then the closest cell of the event target; a keyup with another
    key makes no call at all. *)
Theorem keyup_reaches_editing_iff_Enter
    (K : Constants) (key : string) (target : ElementOrNull) (s : St Editable.CdkEditable) :
  Editable.destroyed (self s) = false ->
  let r := Editable.dispatch K (Editable.keyup key target) s in
  ((exists c, In (editing_next c) (calls r)) <-> key = "Enter"%string) /\
  (key = "Enter"%string ->
   calls r = [editing_next (closest (dom (world s)) target (CELL_SELECTOR K))]) /\
  (key <> "Enter"%string -> calls r = []).
Proof.
  intros Hlive. destruct s as [[host d] w]. simpl in Hlive. subst d.
  unfold Editable.dispatch, Editable.toClosest, bind, this, read_world, call, ret.
  simpl.
  destruct (String.eqb_spec key "Enter") as [->|Hne]; simpl.
  - split; [split|split]; try congruence; try reflexivity.
    intros _. eexists. left. reflexivity.
  - split; [split|split]; try congruence; try reflexivity.
    intros [c []].
Qed.

(** ** The popover directive *)

Ltac unfold_monad :=
  unfold lift_outcome, focus in *;
  unfold bind, ret, throw, this, assign, read_world, change_world, call in *.

Ltac unfold_popover :=
  unfold PopoverEdit.editingCell_next, PopoverEdit._maybeReturnFocusToCell,
    PopoverEdit._showEditOverlay, PopoverEdit.size_subscriber,
    PopoverEdit._createEditOverlay,
    PopoverEdit.ngOnDestroy, PopoverEdit.set_colspan,
    PopoverEdit._updateOverlaySize, PopoverEdit._getPositionStrategy,
    PopoverEdit._getOverlayCells_m, PopoverEdit.overlayRef_dispose_,
    PopoverEdit.overlayRef_detach_, PopoverEdit.overlayRef_attach_,
    PopoverEdit.detachments_next, PopoverEdit.overlay_create_,
    subscriber_next in *.

(** Case analysis on whatever blocks the evaluation of a method. *)
Ltac case_step :=
  match goal with
  | |- context [match ?x with _ => _ end] =>
      lazymatch x with
      | context [match _ with _ => _ end] => fail
      | _ => destruct x eqn:?
      end
  end.

Ltac run_popover :=
  unfold_popover; unfold_monad; simpl; repeat (case_step; simpl);
  try (simpl in *; congruence).

Lemma filter_none (p : Call -> bool) (t : list Call) :
  Forall (fun c => p c = false) t -> filter p t = [].
Proof.
  induction 1 as [|c t Hc _ IH]; simpl; [reflexivity|].
  now rewrite Hc.
Qed.

Lemma count_app (p : Call -> bool) (t u : list Call) :
  count p (t ++ u) = (count p t + count p u)%nat.
Proof. unfold count. now rewrite filter_app, length_app. Qed.

Section ResourceFacts.

Variable R : Type.
Variables is_make is_release : Call -> bool.
Variable made : R -> Call -> Prop.


End ResourceFacts.

Section PopoverFacts.

Variable K : Constants.

Import PopoverEdit.

(** Updating the size leaves the directive and the world as they are and
    calls nothing but [updateSize]. *)
Lemma updateOverlaySize_frame (s : St CdkPopoverEdit) :
  final (_updateOverlaySize K s) = s /\
  Forall (fun c => is_updateSize c = true) (calls (_updateOverlaySize K s)).
Proof.
  destruct s as [[host tpl ctx col ft ov d n] w].
  run_popover; split; repeat constructor.
Qed.

(** One size subscriber, and any number of them in a row: they return,
    leave everything but the count of live subscriptions as it is, do not
    raise that count, and call nothing but [updateSize], on the overlay of
    the directive. *)
Lemma size_subscriber_frame (s : St CdkPopoverEdit) :
  exists n' t,
    size_subscriber K s
    = mkRes (Ok tt) (mkSt (set_sizeSubscriptions n' (self s)) (world s)) t /\
    (n' <= sizeSubscriptions (self s))%nat /\
    size_calls (overlayRef (self s)) t.
Proof.
  destruct s as [[host tpl ctx col ft ov d n] w].
  unfold size_subscriber, subscriber_next, size_calls.
  run_popover; eexists _, _; (split; [reflexivity|]); simpl;
    (split; [lia|]); repeat constructor; eauto.
Qed.

Lemma repeat_size_subscriber_frame (n : nat) (s : St CdkPopoverEdit) :
  exists n' t,
    repeat_method n (size_subscriber K) s
    = mkRes (Ok tt) (mkSt (set_sizeSubscriptions n' (self s)) (world s)) t /\
    (n' <= sizeSubscriptions (self s))%nat /\
    size_calls (overlayRef (self s)) t.
Proof.
  revert s. induction n as [|n IH]; intros s; cbn [repeat_method].
  - exists (sizeSubscriptions (self s)), [].
    destruct s as [[host tpl ctx col ft ov d m] w]. unfold size_calls. simpl.
    repeat split; [lia|]. destruct ov; constructor.
  - destruct (size_subscriber_frame s) as (n1 & t1 & H1 & Hle1 & Hc1).
    destruct (IH (mkSt (set_sizeSubscriptions n1 (self s)) (world s)))
      as (n2 & t2 & H2 & Hle2 & Hc2).
    exists n2, (t1 ++ t2). unfold bind. rewrite H1, H2.
    destruct s as [[host tpl ctx col ft ov d m] w]. unfold size_calls in *. simpl in *.
    repeat split; [lia|].
    destruct ov; [apply Forall_app; split; assumption | now subst].
Qed.

Lemma react_viewport (s : St CdkPopoverEdit) :
  react K ViewportChanged s
  = repeat_method (sizeSubscriptions (self s)) (size_subscriber K) s.
Proof.
  unfold react, bind, this. simpl.
  now destruct (repeat_method (sizeSubscriptions (self s)) (size_subscriber K) s).
Qed.

Lemma size_calls_filter (o : option OverlayRef) (t : list Call) (p : Call -> bool) :
  size_calls o t ->
  (forall ref cells, p (overlayRef_updateSize ref cells) = false) ->
  filter p t = [].
Proof.
  unfold size_calls. intros Ht Hp. destruct o as [ref|]; [|now subst].
  apply filter_none. eapply Forall_impl; [|exact Ht].
  intros c (cells & ->). apply Hp.
Qed.


(** What every delivered input keeps, a run keeps. *)
Lemma run_from_keeps (P : St CdkPopoverEdit -> list Call -> Prop) :
  (forall i s t, P s t -> P (final (react K i s)) (t ++ calls (react K i s))) ->
  forall inputs listening s t,
    P s t ->
    P (fst (fst (run_from K listening inputs s)))
      (t ++ snd (run_from K listening inputs s)).
Proof.
  intros Hstep. induction inputs as [|i rest IH]; intros listening s t Hs; simpl.
  - now rewrite app_nil_r.
  - destruct (is_edit_event i && negb listening).
    + now apply IH.
    + specialize (IH (if is_edit_event i then returned (outcome (react K i s)) else listening)
                     _ _ (Hstep i s t Hs)).
      destruct (run_from K _ rest (final (react K i s))) as [[s' l'] cs].
      simpl in *. now rewrite app_assoc.
Qed.

Lemma run_keeps (P : St CdkPopoverEdit -> list Call -> Prop) :
  (forall i s t, P s t -> P (final (react K i s)) (t ++ calls (react K i s))) ->
  forall inputs s t,
    P s t -> P (fst (run K inputs s)) (t ++ snd (run K inputs s)).
Proof.
  intros Hstep inputs s t Hs.
  pose proof (run_from_keeps P Hstep inputs true s t Hs) as H.
  unfold run. now destruct (run_from K true inputs s) as [[s' l'] cs].
Qed.








End PopoverFacts.

(** C3 (amended).  The subscriber of the edit events creates or attaches an
    overlay only when the open signal is true and the template is non-null;
    it detaches only when an overlay reference exists, and [ngOnDestroy]
    disposes only when an overlay reference exists.  When the template is
    null and the overlay reference is absent, an edit event makes no call at
    all and [ngOnDestroy] makes no overlay call.  With a null template and
    an existing overlay reference, an edit event, whatever its signal,
    detaches the overlay. *)
Theorem edit_event_overlay_calls_are_guarded
    (K : Constants) (open : bool) (s : St PopoverEdit.CdkPopoverEdit) :
  let r := PopoverEdit.editingCell_next K open s in
  (filter (fun c => is_create c || is_attach c) (calls r) <> [] ->
   open = true /\ PopoverEdit.template (self s) <> None) /\
  (filter is_detach (calls r) <> [] -> PopoverEdit.overlayRef (self s) <> None) /\
  (filter is_dispose (calls (PopoverEdit.ngOnDestroy s)) <> [] ->
   PopoverEdit.overlayRef (self s) <> None) /\
  (PopoverEdit.template (self s) = None ->
   PopoverEdit.overlayRef (self s) = None ->
   calls r = [] /\ filter is_overlay_call (calls (PopoverEdit.ngOnDestroy s)) = []) /\
  (PopoverEdit.template (self s) = None ->
   forall ref, PopoverEdit.overlayRef (self s) = Some ref ->
   filter is_overlay_call (calls r) = [overlayRef_detach ref]).
Proof.
  destruct s as [[host tpl ctx col ft ov d n] w].
  cbn [self PopoverEdit.template PopoverEdit.overlayRef].
  destruct open, tpl as [tpl|], ov as [ov|];
    (split; [|split; [|split; [|split]]]);
    try (intros; split; congruence); try congruence;
    try (intros H; exfalso; revert H; now run_popover);
    try (intros; subst; now run_popover).
  all: intros _ ref [= <-]; now run_popover.
Qed.

(** C6.  On a close (an edit event that does not open: the signal is false
    or there is no template), the focus goes to the host cell exactly when
    the focused element lies inside the edit pane of the directive's
    overlay, and this happens before the overlay is detached; otherwise
    [focus()] is not called and the focused element stays what it was. *)
Theorem close_returns_focus_iff_focus_in_pane
    (K : Constants) (open : bool) (s : St PopoverEdit.CdkPopoverEdit) :
  open && PopoverEdit.is_some (PopoverEdit.template (self s)) = false ->
  let r := PopoverEdit.editingCell_next K open s in
  let host := PopoverEdit.elementRef (self s) in
  let inside := focus_in_pane K (world s) (PopoverEdit.overlayRef (self s)) in
  activeElement (world (final r))
  = (if inside then Some host else activeElement (world s)) /\
  filter is_focus (calls r) = (if inside then [element_focus host] else []) /\
  (forall ref, PopoverEdit.overlayRef (self s) = Some ref ->
   exists rest,
     calls r = (if inside then [element_focus host] else [])
               ++ overlayRef_detach ref :: rest /\
     filter is_focus rest = []).
Proof.
  destruct s as [[host tpl ctx col ft ov d n] w].
  cbn [self world PopoverEdit.template PopoverEdit.overlayRef PopoverEdit.elementRef].
  intros Hclose. unfold focus_in_pane.
  repeat split.
  - revert Hclose. run_popover.
  - revert Hclose. run_popover.
  - intros ref ->. revert Hclose. run_popover; intros _; eexists; split; reflexivity.
Qed.


(** ** The row hover content directive *)

Ltac unfold_hover :=
  unfold RowHoverContent.react, RowHoverContent.hoveringOnRow_next,
    RowHoverContent.ngOnDestroy, RowHoverContent.viewRef_destroy_,
    RowHoverContent.viewContainerRef_detach_,
    RowHoverContent.viewContainerRef_insert_,
    RowHoverContent.createEmbeddedView_ in *.


Section RowHoverFacts.

Import RowHoverContent.





End RowHoverFacts.


(** ** The properties at concrete pages *)

Import Examples.

(** C1, as stated, fails for the directive on the first cell of a row of
    three with [{before: 1}]: the slice starts at the relative index [-1],
    which counts from the end of the row, and the result is empty; it is not
    the range of one cell before the origin cell and the origin cell. *)
Lemma getOverlayCells_before_the_first_cell :
  _getOverlayCells K dom0 first_cell (mkColspan (Some 1) None) = Ok [] /\
  ~ (exists r,
       _getOverlayCells K dom0 first_cell (mkColspan (Some 1) None) = Ok r /\
       colspan_range (querySelectorAll dom0 10%nat (CELL_SELECTOR K)) first_cell 1 0 r).
Proof.
  split; [reflexivity|].
  intros (r & Hr & front & pre & post & back & _ & _ & _ & Hshape).
  vm_compute in Hr. injection Hr as <-.
  destruct pre; discriminate.
Qed.

Lemma getOverlayCells_colspan_range_witness :
  exists r,
    _getOverlayCells K dom0 middle_cell (mkColspan (Some 1) (Some 1)) = Ok r /\
    colspan_range ([1%nat] ++ 2%nat :: [3%nat]) 2%nat 1 (Nat.min 1 (List.length [3%nat])) r /\
    r = map Some (skipn (List.length [1%nat] - 1) [1%nat] ++ 2%nat :: firstn 1 [3%nat]) /\
    (truthy (before (mkColspan (Some 1) (Some 1))) = false ->
     truthy (after (mkColspan (Some 1) (Some 1))) = false -> r = [Some 2%nat]).
Proof.
  apply (@getOverlayCells_colspan_range K dom0 middle_cell (mkColspan (Some 1) (Some 1))
           2%nat 10%nat [1%nat] [3%nat] 1%nat 1%nat).
  - reflexivity.
  - reflexivity.
  - reflexivity.
  - simpl. intros [H|[]]. discriminate H.
  - reflexivity.
  - reflexivity.
  - simpl. lia.
Defined.

Lemma openEdit_without_cell_emits_null_witness :
  calls (EditOpen.openEdit K 0%nat (mkSt (EditOpen.mkCdkEditOpen outside) world0))
  = [editing_next None; stopPropagation 0%nat] /\
  outcome (EditOpen.openEdit K 0%nat (mkSt (EditOpen.mkCdkEditOpen outside) world0)) = Ok tt.
Proof.
  apply (@openEdit_without_cell_emits_null K 0%nat
           (mkSt (EditOpen.mkCdkEditOpen outside) world0)).
  reflexivity.
Defined.

Lemma keyup_reaches_editing_iff_Enter_witness :
  let r := Editable.dispatch K (Editable.keyup "Enter" (Some middle_cell))
             (mkSt (Editable.mkCdkEditable 10%nat false) world0) in
  ((exists c, In (editing_next c) (calls r)) <-> "Enter"%string = "Enter"%string) /\
  ("Enter"%string = "Enter"%string ->
   calls r = [editing_next (closest (dom world0) (Some middle_cell) (CELL_SELECTOR K))]) /\
  ("Enter"%string <> "Enter"%string -> calls r = []).
Proof.
  apply (@keyup_reaches_editing_iff_Enter K "Enter" (Some middle_cell)
           (mkSt (Editable.mkCdkEditable 10%nat false) world0)).
  reflexivity.
Defined.

(** C3, as stated, fails: with a null template and an existing overlay, an
    edit event is answered by a detach of the overlay, and with a template
    but no overlay yet, an open event creates and attaches one. *)
Lemma edit_event_with_null_template_detaches :
  PopoverEdit.template (self opened_no_template) = None /\
  filter is_overlay_call (calls (PopoverEdit.editingCell_next K true opened_no_template))
  = [overlayRef_detach overlay0] /\
  PopoverEdit.overlayRef (self fresh) = None /\
  filter is_overlay_call (calls (PopoverEdit.editingCell_next K true fresh))
  = [overlay_create "cdk-edit-pane" [Some middle_cell] overlay0;
     overlayRef_detachments_subscribe overlay0;
     overlayRef_attach overlay0 (Some 7%nat) None;
     overlayRef_detachments overlay0;
     overlayRef_updateSize overlay0 [Some middle_cell]].
Proof.
  repeat split.
Qed.


Lemma close_returns_focus_iff_focus_in_pane_witness :
  let r := PopoverEdit.editingCell_next K false opened in
  let host := PopoverEdit.elementRef (self opened) in
  let inside := focus_in_pane K (world opened) (PopoverEdit.overlayRef (self opened)) in
  activeElement (world (final r))
  = (if inside then Some host else activeElement (world opened)) /\
  filter is_focus (calls r) = (if inside then [element_focus host] else []) /\
  (forall ref, PopoverEdit.overlayRef (self opened) = Some ref ->
   exists rest,
     calls r = (if inside then [element_focus host] else [])
               ++ overlayRef_detach ref :: rest /\
     filter is_focus rest = []).
Proof.
  apply (@close_returns_focus_iff_focus_in_pane K false opened).
  reflexivity.
Defined.


(** ** The model at work *)

(** A mouseover puts the closest row of its target on the hovering stream
    and a mouseleave puts null there, both within the dispatch of the event
    itself. *)
Lemma mouseover_and_mouseleave_emit_at_once
    (C : Constants) (target : ElementOrNull) (s : St Editable.CdkEditable) :
  Editable.destroyed (self s) = false ->
  calls (Editable.dispatch C (Editable.mouseover target) s)
  = [hovering_next (closest (dom (world s)) target (ROW_SELECTOR C))] /\
  calls (Editable.dispatch C (Editable.mouseleave target) s) = [hovering_next None].
Proof.
  destruct s as [[host d] w]. simpl. intros ->. split; reflexivity.
Qed.

(** After its destruction [CdkEditable] lets no event through. *)
Lemma dispatch_after_destroy (C : Constants) (ev : Editable.TableEvent)
    (s : St Editable.CdkEditable) :
  calls (Editable.dispatch C ev (final (Editable.ngOnDestroy s))) = [].
Proof.
  destruct s as [[host d] w]. reflexivity.
Qed.

(** With [{before: 1, after: 1}] on the middle cell of a row of three, the
    popover spans the whole row. *)
Example getOverlayCells_middle_cell :
  _getOverlayCells K dom0 middle_cell (mkColspan (Some 1) (Some 1))
  = Ok [Some 1%nat; Some 2%nat; Some 3%nat].
Proof. reflexivity. Qed.

(** Outside every row a colspan makes the cell range fail, and no colspan
    gives the list holding null. *)
Example getOverlayCells_outside_a_row :
  _getOverlayCells K dom0 outside (mkColspan (Some 1) None) = Throw TypeError_null /\
  _getOverlayCells K dom0 outside empty_colspan = Ok [None].
Proof. split; reflexivity. Qed.

(** Open, close, open again, then destroy: one overlay, attached twice,
    detached once and disposed at the end. *)
Example popover_open_close_open_destroy :
  filter is_overlay_call
    (PopoverEdit.lifetime K
       [PopoverEdit.EditingCell true; PopoverEdit.EditingCell false;
        PopoverEdit.EditingCell true] fresh)
  = [overlay_create "cdk-edit-pane" [Some middle_cell] overlay0;
     overlayRef_detachments_subscribe overlay0;
     overlayRef_attach overlay0 (Some 7%nat) None;
     overlayRef_detachments overlay0;
     overlayRef_updateSize overlay0 [Some middle_cell];
     overlayRef_detach overlay0;
     overlayRef_attach overlay0 (Some 7%nat) None;
     overlayRef_detachments overlay0;
     overlayRef_updateSize overlay0 [Some middle_cell];
     overlayRef_dispose overlay0].
Proof. reflexivity. Qed.

(** Closing the opened popover while the focus is inside its pane gives the
    focus back to the cell; with the focus elsewhere it stays there. *)
Example close_with_focus_inside_and_outside :
  activeElement (world (final (PopoverEdit.editingCell_next K false opened)))
  = Some middle_cell /\
  activeElement (world (final (PopoverEdit.editingCell_next K false
     (mkSt (self opened) (set_activeElement (Some first_cell) (world opened))))))
  = Some first_cell.
Proof. split; reflexivity. Qed.

(** Hover on, off, on, then destroy: one view, created once, re-inserted,
    and destroyed at the end. *)
Example hover_on_off_on_destroy :
  RowHoverContent.lifetime [true; false; true]
    (mkSt (RowHoverContent.new 10%nat 7%nat) world0)
  = [createEmbeddedView 7%nat 0%nat;
     viewContainerRef_detach 0;
     viewContainerRef_insert 0%nat;
     destroyed_next; destroyed_complete;
     viewRef_destroy 0%nat].
Proof. reflexivity. Qed.


(** * Further properties of the directives *)

(** ** More on arrays *)

Section MoreArrayFacts.

Context {A : Type}.

Lemma slice_is_run (l : list A) (start end_ : Z) :
  run_of (JsArray.slice l start end_) l.
Proof.
  unfold run_of, JsArray.slice.
  set (k := Z.to_nat (JsArray.relative_index (Z.of_nat (List.length l)) start)).
  set (n := Z.to_nat (JsArray.relative_index (Z.of_nat (List.length l)) end_
                      - JsArray.relative_index (Z.of_nat (List.length l)) start)).
  exists (firstn k l), (skipn n (skipn k l)).
  now rewrite firstn_skipn, firstn_skipn.
Qed.

Lemma slice_length (l : list A) (start end_ : Z) :
  Z.of_nat (List.length (JsArray.slice l start end_))
  = Z.max 0 (Z.min
      (JsArray.relative_index (Z.of_nat (List.length l)) end_
       - JsArray.relative_index (Z.of_nat (List.length l)) start)
      (Z.of_nat (List.length l)
       - JsArray.relative_index (Z.of_nat (List.length l)) start)).
Proof.
  unfold JsArray.slice.
  rewrite length_firstn, length_skipn.
  unfold JsArray.relative_index.
  destruct (Z.ltb_spec start 0), (Z.ltb_spec end_ 0); lia.
Qed.

Lemma indexOf_from_bounds (eqb : A -> A -> bool) (l : list A) (x : A) (i : Z) :
  JsArray.indexOf_from eqb l x i = -1 \/
  (i <= JsArray.indexOf_from eqb l x i < i + Z.of_nat (List.length l)).
Proof.
  revert i. induction l as [|y l IH]; intros i; simpl.
  - now left.
  - destruct (eqb y x).
    + right. lia.
    + destruct (IH (i + 1)) as [H|H]; [now left | right; lia].
Qed.

(** When more cells are asked before [x] than there are, but fewer than the
    array is long, the slice starts behind [x]. *)
Lemma slice_wraps_behind (pre post : list A) (x : A) (b a : nat) :
  (List.length pre < b)%nat ->
  (b < List.length pre + 1 + List.length post)%nat ->
  run_of (JsArray.slice (pre ++ x :: post)
            (Z.of_nat (List.length pre) - Z.of_nat b)
            (Z.of_nat (List.length pre) + Z.of_nat a + 1))
         post.
Proof.
  intros Hlow Hhigh. unfold JsArray.slice, JsArray.relative_index.
  rewrite length_app. simpl List.length.
  destruct (Z.ltb_spec (Z.of_nat (List.length pre) - Z.of_nat b) 0) as [_|Hge]; [|lia].
  destruct (Z.ltb_spec (Z.of_nat (List.length pre) + Z.of_nat a + 1) 0) as [Hneg|_]; [lia|].
  set (j := (List.length pre + 1 + List.length post - b)%nat).
  replace (Z.max (Z.of_nat (List.length pre + S (List.length post))
                  + (Z.of_nat (List.length pre) - Z.of_nat b)) 0)
    with (Z.of_nat (List.length pre + j)) by (unfold j; lia).
  rewrite Nat2Z.id, skipn_app.
  rewrite skipn_all2 by lia.
  replace (List.length pre + j - List.length pre)%nat with (S (j - 1)) by (unfold j; lia).
  simpl app. simpl skipn.
  match goal with |- run_of (firstn ?n _) _ => set (m := n) end.
  exists (firstn (j - 1) post), (skipn m (skipn (j - 1) post)).
  now rewrite firstn_skipn, firstn_skipn.
Qed.

(** When at least as many cells are asked before [x] as the array is long,
    the relative start, counted from the end, falls on or before [x] again:
    the slice holds [x] and the [b - length] cells before it, or all of
    them. *)
Lemma slice_wraps_before (pre post : list A) (x : A) (b a : nat) :
  (List.length pre + 1 + List.length post <= b)%nat ->
  JsArray.slice (pre ++ x :: post)
    (Z.of_nat (List.length pre) - Z.of_nat b)
    (Z.of_nat (List.length pre) + Z.of_nat a + 1)
  = skipn (List.length pre - (b - (List.length pre + 1 + List.length post))) pre
    ++ x :: firstn a post.
Proof.
  intros Hb.
  set (b' := Nat.min (List.length pre) (b - (List.length pre + 1 + List.length post))).
  transitivity (JsArray.slice (pre ++ x :: post)
                  (Z.of_nat (List.length pre) - Z.of_nat b')
                  (Z.of_nat (List.length pre) + Z.of_nat a + 1)).
  - unfold JsArray.slice.
    replace (JsArray.relative_index (Z.of_nat (List.length (pre ++ x :: post)))
               (Z.of_nat (List.length pre) - Z.of_nat b))
      with (JsArray.relative_index (Z.of_nat (List.length (pre ++ x :: post)))
               (Z.of_nat (List.length pre) - Z.of_nat b')); [reflexivity|].
    unfold JsArray.relative_index. rewrite length_app. simpl List.length.
    destruct (Z.ltb_spec (Z.of_nat (List.length pre) - Z.of_nat b') 0),
             (Z.ltb_spec (Z.of_nat (List.length pre) - Z.of_nat b) 0); lia.
  - rewrite slice_around by lia.
    replace (List.length pre - b')%nat
      with (List.length pre - (b - (List.length pre + 1 + List.length post)))%nat by lia.
    reflexivity.
Qed.

End MoreArrayFacts.

(** ** More on the cell range *)

Section MoreCellRange.

Variable K : Constants.
Variable dom : Dom.
Variable host : Element.

(** With a colspan set and the host in a row, the result is the slice. *)
Lemma getOverlayCells_set (c : CdkPopoverEditColspan) (row : Element) :
  truthy (before c) || truthy (after c) = true ->
  closest dom (Some host) (ROW_SELECTOR K) = Some row ->
  _getOverlayCells K dom host c
  = Ok (JsArray.slice (map Some (querySelectorAll dom row (CELL_SELECTOR K)))
          (JsArray.indexOf same_element
             (map Some (querySelectorAll dom row (CELL_SELECTOR K)))
             (closest dom (Some host) (CELL_SELECTOR K))
           - or_zero (before c))
          (JsArray.indexOf same_element
             (map Some (querySelectorAll dom row (CELL_SELECTOR K)))
             (closest dom (Some host) (CELL_SELECTOR K))
           + or_zero (after c) + 1)).
Proof.
  intros Hset Hrow. unfold _getOverlayCells. rewrite Hrow.
  destruct (truthy (before c)), (truthy (after c)); try discriminate; reflexivity.
Qed.

(** The same, with the origin cell found in its row. *)
Lemma getOverlayCells_found (c : CdkPopoverEditColspan) (cell row : Element)
    (pre post : list Element) :
  truthy (before c) || truthy (after c) = true ->
  closest dom (Some host) (CELL_SELECTOR K) = Some cell ->
  closest dom (Some host) (ROW_SELECTOR K) = Some row ->
  querySelectorAll dom row (CELL_SELECTOR K) = pre ++ cell :: post ->
  ~ In cell pre ->
  _getOverlayCells K dom host c
  = Ok (JsArray.slice (map Some pre ++ Some cell :: map Some post)
          (Z.of_nat (List.length (map Some pre)) - or_zero (before c))
          (Z.of_nat (List.length (map Some pre)) + or_zero (after c) + 1)).
Proof.
  intros Hset Hcell Hrow Hcells Hfirst.
  rewrite (@getOverlayCells_set c row Hset Hrow), Hcell, Hcells.
  rewrite map_app. simpl map.
  rewrite indexOf_first; [reflexivity | apply same_element_refl |].
  intros y Hy. apply in_map_iff in Hy as [z [<- Hz]].
  simpl. apply Nat.eqb_neq. intros ->. contradiction.
Qed.

End MoreCellRange.

Lemma truthy_of_positive (n : option Z) (b : nat) :
  or_zero n = Z.of_nat b -> (0 < b)%nat -> truthy n = true.
Proof.
  intros Hn Hb. apply or_zero_truthy. lia.
Qed.

(** X1.  [_getOverlayCells] throws exactly when a colspan is set (one of
    [before] and [after] is truthy) and the host has no enclosing row: it
    then dereferences the null row.  In every other case it returns. *)
Theorem getOverlayCells_throws_iff_colspan_without_row
    (K : Constants) (dom : Dom) (host : Element) (c : CdkPopoverEditColspan) :
  (_getOverlayCells K dom host c = Throw TypeError_null <->
   truthy (before c) || truthy (after c) = true /\
   closest dom (Some host) (ROW_SELECTOR K) = None) /\
  (forall msg, _getOverlayCells K dom host c = Throw msg -> msg = TypeError_null).
Proof.
  unfold _getOverlayCells.
  destruct (truthy (before c)), (truthy (after c)),
    (closest dom (Some host) (ROW_SELECTOR K)); simpl;
    (split; [split; [intros H; try discriminate; auto | intros [H1 H2]; congruence]
            | intros msg H; congruence]).
Qed.

(** X2.  With a colspan set and the host in a row, whatever the values of
    [before] and [after] (negative or larger than the row included) and
    whether or not the origin cell is found in the row, the result is a run
    of consecutive cells of the row, in row order. *)
Theorem getOverlayCells_is_run_of_row
    (K : Constants) (dom : Dom) (host : Element) (c : CdkPopoverEditColspan)
    (row : Element) :
  truthy (before c) || truthy (after c) = true ->
  closest dom (Some host) (ROW_SELECTOR K) = Some row ->
  exists r,
    _getOverlayCells K dom host c = Ok r /\
    run_of r (map Some (querySelectorAll dom row (CELL_SELECTOR K))).
Proof.
  intros Hset Hrow. eexists. split.
  - apply (@getOverlayCells_set K dom host c row Hset Hrow).
  - apply slice_is_run.
Qed.

(** X3.  With [before] and [after] whole numbers of cells, not negative,
    the range never holds more than [before + after + 1] cells. *)
Theorem getOverlayCells_length_bound
    (K : Constants) (dom : Dom) (host : Element) (c : CdkPopoverEditColspan)
    (r : list ElementOrNull) :
  0 <= or_zero (before c) ->
  0 <= or_zero (after c) ->
  _getOverlayCells K dom host c = Ok r ->
  Z.of_nat (List.length r) <= or_zero (before c) + or_zero (after c) + 1.
Proof.
  intros Hb Ha. unfold _getOverlayCells.
  destruct (negb (truthy (before c)) && negb (truthy (after c))).
  - intros [= <-]. simpl. lia.
  - destruct (closest dom (Some host) (ROW_SELECTOR K)) as [row|]; [|discriminate].
    intros [= <-]. rewrite slice_length.
    set (l := map Some (querySelectorAll dom row (CELL_SELECTOR K))).
    unfold JsArray.indexOf.
    destruct (indexOf_from_bounds same_element l
                (closest dom (Some host) (CELL_SELECTOR K)) 0) as [Hi|Hi].
    + rewrite Hi. unfold JsArray.relative_index.
      destruct (Z.ltb_spec (-1 - or_zero (before c)) 0),
               (Z.ltb_spec (-1 + or_zero (after c) + 1) 0); lia.
    + set (i := JsArray.indexOf_from same_element l
                  (closest dom (Some host) (CELL_SELECTOR K)) 0) in *.
      unfold JsArray.relative_index.
      destruct (Z.ltb_spec (i - or_zero (before c)) 0),
               (Z.ltb_spec (i + or_zero (after c) + 1) 0); lia.
Qed.

(** X4.  When [before] is larger than the number of cells the row has
    before the origin cell but smaller than the length of the row, the start
    of the slice is counted from the end of the row and falls behind the
    origin cell: the result is a run of the cells after the origin cell, and
    the origin cell is not in it. *)
Theorem getOverlayCells_misses_origin_cell
    (K : Constants) (dom : Dom) (host : Element) (c : CdkPopoverEditColspan)
    (cell row : Element) (pre post : list Element) (b a : nat) :
  closest dom (Some host) (CELL_SELECTOR K) = Some cell ->
  closest dom (Some host) (ROW_SELECTOR K) = Some row ->
  querySelectorAll dom row (CELL_SELECTOR K) = pre ++ cell :: post ->
  NoDup (pre ++ cell :: post) ->
  or_zero (before c) = Z.of_nat b ->
  or_zero (after c) = Z.of_nat a ->
  (List.length pre < b)%nat ->
  (b < List.length pre + 1 + List.length post)%nat ->
  exists r,
    _getOverlayCells K dom host c = Ok r /\
    run_of r (map Some post) /\
    ~ In (Some cell) r.
Proof.
  intros Hcell Hrow Hcells Hnodup Hb Ha Hlow Hhigh.
  assert (Hpre : ~ In cell pre /\ ~ In cell post).
  { apply NoDup_remove_2 in Hnodup. rewrite in_app_iff in Hnodup. tauto. }
  destruct Hpre as [Hpre Hpost].
  assert (Hset : truthy (before c) || truthy (after c) = true).
  { rewrite (truthy_of_positive _ Hb) by lia. reflexivity. }
  rewrite (@getOverlayCells_found K dom host c cell row pre post Hset Hcell Hrow Hcells Hpre), Hb, Ha.
  eexists. split; [reflexivity|].
  assert (Hrun : run_of
            (JsArray.slice (map Some pre ++ Some cell :: map Some post)
               (Z.of_nat (List.length (map Some pre)) - Z.of_nat b)
               (Z.of_nat (List.length (map Some pre)) + Z.of_nat a + 1))
            (map Some post)).
  { apply slice_wraps_behind; rewrite !length_map; assumption. }
  split; [exact Hrun|].
  destruct Hrun as (front & back & Hpost').
  intros Hin. apply Hpost.
  assert (Hin' : In (Some cell) (map Some post)).
  { rewrite Hpost'. rewrite !in_app_iff. tauto. }
  apply in_map_iff in Hin' as (z & [= ->] & Hz). exact Hz.
Qed.

(** X5.  When [before] is at least the length of the row, the start counted
    from the end falls on or before the origin cell again: the result holds
    the [before - length] cells before the origin cell (all of them when
    there are fewer), the origin cell, and the cells after it, [after] of
    them or as many as the row has. *)
Theorem getOverlayCells_before_at_least_row_length
    (K : Constants) (dom : Dom) (host : Element) (c : CdkPopoverEditColspan)
    (cell row : Element) (pre post : list Element) (b a : nat) :
  closest dom (Some host) (CELL_SELECTOR K) = Some cell ->
  closest dom (Some host) (ROW_SELECTOR K) = Some row ->
  querySelectorAll dom row (CELL_SELECTOR K) = pre ++ cell :: post ->
  ~ In cell pre ->
  or_zero (before c) = Z.of_nat b ->
  or_zero (after c) = Z.of_nat a ->
  (List.length pre + 1 + List.length post <= b)%nat ->
  _getOverlayCells K dom host c
  = Ok (map Some
          (skipn (List.length pre - (b - (List.length pre + 1 + List.length post))) pre
           ++ cell :: firstn a post)).
Proof.
  intros Hcell Hrow Hcells Hpre Hb Ha Hlen.
  assert (Hset : truthy (before c) || truthy (after c) = true).
  { rewrite (truthy_of_positive _ Hb) by lia. reflexivity. }
  rewrite (@getOverlayCells_found K dom host c cell row pre post Hset Hcell Hrow Hcells Hpre), Hb, Ha.
  rewrite slice_wraps_before by (rewrite !length_map; exact Hlen).
  rewrite !length_map.
  now rewrite map_app, skipn_map, firstn_map.
Qed.

(** ** More on the popover directive *)

Ltac unfold_popover_more :=
  unfold current_cells, PopoverEdit.colspan, PopoverEdit.react in *.

Ltac run_popover_more := unfold_popover_more; run_popover.

(** X6.  The colspan getter returns what the setter was given, also when
    the setter throws while it recomputes the position.  Without an overlay
    the setter only stores the value; and when it throws, it has stored the
    value and made no call. *)
Theorem colspan_setter_stores_the_value
    (K : Constants) (value : CdkPopoverEditColspan) (s : St PopoverEdit.CdkPopoverEdit) :
  let r := PopoverEdit.set_colspan K value s in
  outcome (PopoverEdit.colspan (final r)) = Ok value /\
  (PopoverEdit.overlayRef (self s) = None ->
   calls r = [] /\ outcome r = Ok tt /\
   final r = mkSt (PopoverEdit.set__colspan value (self s)) (world s)) /\
  (forall msg, outcome r = Throw msg ->
   calls r = [] /\
   final r = mkSt (PopoverEdit.set__colspan value (self s)) (world s)).
Proof.
  destruct s as [[host tpl ctx col ft ov d n] w].
  cbn [self world PopoverEdit.overlayRef].
  split; [|split].
  - run_popover_more; reflexivity.
  - intros ->. run_popover_more; repeat split.
  - intros msg. run_popover_more; intros H; try discriminate; repeat split.
Qed.

(** X7.  With an overlay, the colspan setter hands the overlay a position
    strategy for the cell range of the new value and, if the overlay is
    attached, updates its size for the same cells; a detached overlay is not
    resized. *)
Theorem colspan_setter_repositions_for_the_new_value
    (K : Constants) (value : CdkPopoverEditColspan) (s : St PopoverEdit.CdkPopoverEdit)
    (ref : OverlayRef) (cells : list ElementOrNull) :
  PopoverEdit.overlayRef (self s) = Some ref ->
  _getOverlayCells K (dom (world s)) (PopoverEdit.elementRef (self s)) value = Ok cells ->
  let r := PopoverEdit.set_colspan K value s in
  calls r = overlayRef_updatePositionStrategy ref cells
            :: (if hasAttached (world s) ref then [overlayRef_updateSize ref cells] else []) /\
  outcome r = Ok tt.
Proof.
  destruct s as [[host tpl ctx col ft ov d n] w].
  cbn [self world PopoverEdit.overlayRef PopoverEdit.elementRef].
  intros -> Hcells.
  unfold_popover; unfold_monad; simpl.
  rewrite Hcells. simpl.
  destruct (hasAttached w ref); simpl; [rewrite Hcells|]; split; reflexivity.
Qed.

(** X8.  Once [ngOnDestroy] has run, an edit event or a change of the
    viewport makes no call and changes nothing. *)
Theorem destroyed_popover_ignores_events
    (K : Constants) (open : bool) (s : St PopoverEdit.CdkPopoverEdit) :
  let d := final (PopoverEdit.ngOnDestroy s) in
  calls (PopoverEdit.react K (PopoverEdit.EditingCell open) d) = [] /\
  final (PopoverEdit.react K (PopoverEdit.EditingCell open) d) = d /\
  calls (PopoverEdit.react K PopoverEdit.ViewportChanged d) = [] /\
  final (PopoverEdit.react K PopoverEdit.ViewportChanged d) = d.
Proof.
  destruct s as [[host tpl ctx col ft ov d n] w].
  run_popover_more; repeat split.
Qed.

(** X9.  An open of a live directive that has a template, whose cell range
    can be computed and whose overlay has no portal attached.  Without an
    overlay yet, the overlay is created with the edit pane class and a
    position strategy for the cells, a focus trap is made for its pane, the
    pane gets the attribute aria-role = dialog, and the directive listens to
    the detachments; then, as for an overlay that exists already, the
    template is attached with the context, the trap is asked to focus its
    first element, the detachments of the overlay are asked for, and the
    size is set for the same cells.  If the overlay has a portal attached,
    the attach is refused: the open throws after that one call and changes
    nothing. *)
Theorem open_sets_up_the_overlay
    (K : Constants) (s : St PopoverEdit.CdkPopoverEdit) (tpl : TemplateRef)
    (cells : list ElementOrNull) :
  PopoverEdit.template (self s) = Some tpl ->
  PopoverEdit.destroyed (self s) = false ->
  current_cells K s = Ok cells ->
  let r := PopoverEdit.editingCell_next K true s in
  let ctx := PopoverEdit.context (self s) in
  (PopoverEdit.overlayRef (self s) = None ->
   let ref := shown_overlay s in
   hasAttached (world s) ref = false ->
   outcome r = Ok tt /\
   calls r = [overlay_create (EDIT_PANE_CLASS K) cells ref;
              focusTrapFactory_create (overlayElement ref);
              setAttribute (overlayElement ref) "aria-role" "dialog";
              overlayRef_detachments_subscribe ref;
              overlayRef_attach ref (Some tpl) ctx;
              focusInitialElementWhenReady (mkFocusTrap (overlayElement ref));
              overlayRef_detachments ref;
              overlayRef_updateSize ref cells]) /\
  (forall ref trap,
     PopoverEdit.overlayRef (self s) = Some ref ->
     PopoverEdit.focusTrap (self s) = Some trap ->
     hasAttached (world s) ref = false ->
     outcome r = Ok tt /\
     calls r = [overlayRef_attach ref (Some tpl) ctx;
                focusInitialElementWhenReady trap;
                overlayRef_detachments ref;
                overlayRef_updateSize ref cells]) /\
  (forall ref,
     PopoverEdit.overlayRef (self s) = Some ref ->
     hasAttached (world s) ref = true ->
     outcome r = Throw Error_portal_attached /\
     calls r = [overlayRef_attach ref (Some tpl) ctx] /\
     final r = s).
Proof.
  destruct s as [[host tp ctx col ft ov d n] w].
  unfold current_cells, shown_overlay.
  cbn [self world PopoverEdit.template PopoverEdit.destroyed PopoverEdit.overlayRef
       PopoverEdit.focusTrap PopoverEdit.context PopoverEdit.elementRef
       PopoverEdit._colspan].
  intros -> -> Hcells.
  split; [|split].
  - intros -> Hfree. unfold_popover; unfold_monad; simpl.
    rewrite Hcells. simpl.
    unfold hasAttached in *. simpl in *. rewrite Hfree. simpl.
    rewrite Hcells. simpl. split; reflexivity.
  - intros ref trap -> -> Hfree. unfold_popover; unfold_monad; simpl.
    rewrite Hfree. simpl. rewrite Hcells. simpl. split; reflexivity.
  - intros ref -> Hbusy. unfold_popover; unfold_monad; simpl.
    rewrite Hbusy. simpl. repeat split.
Qed.

(** X10.  An open that cannot compute its cell range (a colspan is set and
    the host is in no row).  Without an overlay, the open throws: nothing is
    created, no call is made and the directive is left as it was.  With an
    overlay that has no portal attached, the template is attached, the trap
    is asked to focus and the detachments are asked for; the exception is
    thrown inside the new size subscription, which ends at once: the open
    returns, [updateSize] is not called, and the overlay stays attached with
    no size subscription more than before. *)
Theorem open_without_cell_range_throws
    (K : Constants) (s : St PopoverEdit.CdkPopoverEdit) (tpl : TemplateRef)
    (msg : string) :
  PopoverEdit.template (self s) = Some tpl ->
  PopoverEdit.destroyed (self s) = false ->
  current_cells K s = Throw msg ->
  let r := PopoverEdit.editingCell_next K true s in
  (PopoverEdit.overlayRef (self s) = None ->
   outcome r = Throw msg /\ calls r = [] /\ final r = s) /\
  (forall ref trap,
     PopoverEdit.overlayRef (self s) = Some ref ->
     PopoverEdit.focusTrap (self s) = Some trap ->
     hasAttached (world s) ref = false ->
     outcome r = Ok tt /\
     calls r = [overlayRef_attach ref (Some tpl) (PopoverEdit.context (self s));
                focusInitialElementWhenReady trap;
                overlayRef_detachments ref] /\
     self (final r) = self s /\
     hasAttached (world (final r)) ref = true).
Proof.
  destruct s as [[host tp ctx col ft ov d n] w].
  unfold current_cells.
  cbn [self world PopoverEdit.template PopoverEdit.destroyed PopoverEdit.overlayRef
       PopoverEdit.focusTrap PopoverEdit.context PopoverEdit.elementRef
       PopoverEdit._colspan].
  intros -> -> Hcells.
  split.
  - intros ->. unfold_popover; unfold_monad; simpl.
    rewrite Hcells. simpl. repeat split.
  - intros ref trap -> -> Hfree. unfold_popover; unfold_monad; simpl.
    rewrite Hfree. simpl. rewrite Hcells. simpl.
    repeat split. unfold hasAttached. simpl. now rewrite Nat.eqb_refl.
Qed.

(** *** What holds between two inputs *)

Ltac finish_consistent :=
  intros; try reflexivity; try congruence; auto;
  try (unfold hasAttached; simpl; rewrite Nat.eqb_refl; reflexivity);
  try match goal with
      | Hs : ?P -> false = true, Hn : ?P |- _ => discriminate (Hs Hn)
      end.

Ltac consistent_case ov Hinv :=
  let ref := fresh "ref" in
  let Hsub := fresh "Hsub" in
  destruct ov as [ref|]; destruct Hinv as [-> Hsub];
  run_popover_more; repeat split; finish_consistent.

Section PopoverInvariants.

Variable K : Constants.

Import PopoverEdit.

Lemma new_consistent (host : Element) (w : World) : consistent (mkSt (new host) w).
Proof. repeat split. Qed.

Lemma react_consistent (i : Input) (s : St CdkPopoverEdit) :
  consistent s -> consistent (final (react K i s)).
Proof.
  destruct s as [[host tpl ctx col ft ov d n] w].
  unfold consistent. cbn [self world destroyed overlayRef focusTrap sizeSubscriptions].
  intros [-> Hinv].
  destruct i as [open|t|c|c| |dm|e];
    [consistent_case ov Hinv | consistent_case ov Hinv | consistent_case ov Hinv
    | consistent_case ov Hinv | | consistent_case ov Hinv | consistent_case ov Hinv].
  rewrite react_viewport. cbn [self sizeSubscriptions].
  destruct (repeat_size_subscriber_frame K n
              (mkSt (mkCdkPopoverEdit host tpl ctx col ft ov false n) w))
    as (n' & t & -> & Hle & _).
  cbn [final self world destroyed overlayRef focusTrap sizeSubscriptions
       set_sizeSubscriptions elementRef template context _colspan] in *.
  split; [reflexivity|].
  destruct ov as [ref|]; destruct Hinv as [Hft Hsub]; (split; [exact Hft|]).
  - intros Hn'. apply Hsub. lia.
  - lia.
Qed.

Lemma run_consistent (inputs : list Input) :
  forall s : St CdkPopoverEdit, consistent s -> consistent (fst (run K inputs s)).
Proof.
  intros s Hs.
  apply (run_keeps K (fun s _ => consistent s)) with (t := []); [|exact Hs].
  intros i s0 _ Hs0. now apply react_consistent.
Qed.

End PopoverInvariants.

Section PopoverTraces.

Variable K : Constants.

Import PopoverEdit.

(** The size is updated on the overlay of the directive, if there is one. *)
Lemma updateOverlaySize_on_overlay (s : St CdkPopoverEdit) :
  match overlayRef (self s) with
  | Some ref => Forall (on_overlay ref) (calls (_updateOverlaySize K s))
  | None => calls (_updateOverlaySize K s) = []
  end.
Proof.
  destruct s as [[host tpl ctx col ft ov d n] w].
  run_popover; repeat constructor.
Qed.

(** With the cell range at hand, each live size subscription makes one
    [updateSize] call for it and lives on. *)
Lemma repeat_size_subscriber_calls (n : nat) (s : St CdkPopoverEdit)
    (ref : OverlayRef) (cells : list ElementOrNull) :
  overlayRef (self s) = Some ref ->
  current_cells K s = Ok cells ->
  repeat_method n (size_subscriber K) s
  = mkRes (Ok tt) s (repeat (overlayRef_updateSize ref cells) n).
Proof.
  intros Href Hcells.
  assert (Hone : size_subscriber K s = mkRes (Ok tt) s [overlayRef_updateSize ref cells]).
  { destruct s as [[host tpl ctx col ft ov d m] w].
    unfold current_cells in Hcells. simpl in Href, Hcells. subst ov.
    unfold_popover; unfold_monad; simpl. now rewrite Hcells. }
  induction n as [|n IH]; cbn [repeat_method repeat]; [reflexivity|].
  unfold bind. now rewrite Hone, IH.
Qed.

(** What the calls of one input are, as to the overlay. *)
Lemma react_overlay_calls (i : Input) (s : St CdkPopoverEdit) :
  match overlayRef (self s) with
  | Some ref =>
      overlayRef (self (final (react K i s))) = Some ref /\
      Forall (on_overlay ref) (calls (react K i s))
  | None =>
      creation_first (overlayRef (self (final (react K i s)))) (calls (react K i s))
  end.
Proof.
  destruct i as [open|t|c|c| |dm|e];
    [ | | | | rewrite react_viewport;
            destruct (repeat_size_subscriber_frame K (sizeSubscriptions (self s)) s)
              as (n' & t & -> & _ & Hc);
            destruct s as [[host tpl ctx col ft ov d n] w];
            unfold size_calls in Hc; simpl in *;
            destruct ov as [ref|];
            [ split; [reflexivity|]; eapply Forall_impl; [|exact Hc];
              intros c (cells & ->); reflexivity
            | now subst ]
      | | ];
    destruct s as [[host tpl ctx col ft ov d n] w];
    unfold creation_first; run_popover_more;
    repeat split; repeat constructor;
    try (eexists [], _, _, _; split; [reflexivity|];
         split; [reflexivity | repeat constructor]).
Qed.

Lemma ngOnDestroy_overlay_target (s : St CdkPopoverEdit) :
  match overlayRef (self s) with
  | Some ref => Forall (on_overlay ref) (calls (ngOnDestroy s))
  | None => filter is_overlay_call (calls (ngOnDestroy s)) = []
  end.
Proof.
  destruct s as [[host tpl ctx col ft ov d n] w].
  run_popover; repeat constructor.
Qed.

Lemma creation_first_step (o o' : option OverlayRef) (t u : list Call) :
  creation_first o t ->
  match o with
  | Some ref => o' = Some ref /\ Forall (on_overlay ref) u
  | None => creation_first o' u
  end ->
  creation_first o' (t ++ u).
Proof.
  unfold creation_first. destruct o as [ref|].
  - intros (pre & cls & ps & post & -> & Hpre & Hpost) [-> Hu].
    exists pre, cls, ps, (post ++ u). rewrite <- app_assoc. simpl.
    repeat split; [exact Hpre|]. apply Forall_app. split; assumption.
  - intros Ht. destruct o' as [ref|].
    + intros (pre & cls & ps & post & -> & Hpre & Hpost).
      exists (t ++ pre), cls, ps, post. rewrite <- app_assoc.
      repeat split; [|exact Hpost]. now rewrite filter_app, Ht, Hpre.
    + intros Hu. now rewrite filter_app, Ht, Hu.
Qed.

Lemma run_creation_first (inputs : list Input) :
  forall (s : St CdkPopoverEdit) (t : list Call),
    creation_first (overlayRef (self s)) t ->
    creation_first (overlayRef (self (fst (run K inputs s)))) (t ++ snd (run K inputs s)).
Proof.
  intros s t Ht.
  apply (run_keeps K (fun s t => creation_first (overlayRef (self s)) t)); [|exact Ht].
  intros i s0 t0 Ht0.
  exact (@creation_first_step _ _ _ _ Ht0 (react_overlay_calls i s0)).
Qed.

End PopoverTraces.

(** X11.  Over a whole life of a directive (any inputs, then
    [ngOnDestroy]), either no overlay call is made at all, or the first
    overlay call is the creation of an overlay and every later overlay call
    is made on that overlay: no method of an overlay is called before it
    exists, and no second overlay is involved. *)
Theorem overlay_calls_follow_its_creation
    (K : Constants) (host : Element) (w : World) (inputs : list PopoverEdit.Input) :
  let t := PopoverEdit.lifetime K inputs (mkSt (PopoverEdit.new host) w) in
  filter is_overlay_call t = [] \/
  exists pre cls ps ref post,
    t = pre ++ overlay_create cls ps ref :: post /\
    filter is_overlay_call pre = [] /\
    Forall (on_overlay ref) post.
Proof.
  intros t. unfold t, PopoverEdit.lifetime.
  pose proof (@run_creation_first K inputs (mkSt (PopoverEdit.new host) w) [] eq_refl) as Hrun.
  pose proof (ngOnDestroy_overlay_target
                (fst (PopoverEdit.run K inputs (mkSt (PopoverEdit.new host) w)))) as Hend.
  destruct (PopoverEdit.run K inputs (mkSt (PopoverEdit.new host) w)) as [s' cs].
  simpl in Hrun, Hend. unfold creation_first in Hrun.
  destruct (PopoverEdit.overlayRef (self s')) as [ref|].
  - right. destruct Hrun as (pre & cls & ps & post & -> & Hpre & Hpost).
    exists pre, cls, ps, ref, (post ++ calls (PopoverEdit.ngOnDestroy s')).
    rewrite <- app_assoc. simpl. repeat split; [exact Hpre|].
    apply Forall_app. split; assumption.
  - left. now rewrite filter_app, Hrun, Hend.
Qed.

Section PopoverReachable.

Variable K : Constants.

Import PopoverEdit.

Lemma consistent_edit_event_outcome (open : bool) (s : St CdkPopoverEdit) :
  consistent s ->
  (forall msg, outcome (react K (EditingCell open) s) = Throw msg ->
   open = true /\ template (self s) <> None /\
   ((overlayRef (self s) = None /\ current_cells K s = Throw msg) \/
    (hasAttached (world s) (shown_overlay s) = true /\ msg = Error_portal_attached))) /\
  (open && is_some (template (self s)) = false ->
   outcome (react K (EditingCell open) s) = Ok tt) /\
  (hasAttached (world s) (shown_overlay s) = false ->
   (overlayRef (self s) = None -> exists cells, current_cells K s = Ok cells) ->
   outcome (react K (EditingCell open) s) = Ok tt).
Proof.
  destruct s as [[host tpl ctx col ft ov d n] w].
  unfold consistent, current_cells, shown_overlay, hasAttached.
  cbn [self world destroyed overlayRef focusTrap sizeSubscriptions template
       elementRef _colspan overlayId].
  intros [-> Hinv].
  destruct open, tpl as [tpl|], ov as [ref|]; destruct Hinv as [-> Hsub];
    (split; [|split]);
    try (intros msg; run_popover_more; unfold hasAttached in *; simpl in *;
         intros H; try discriminate; injection H as <-;
         repeat split; try congruence; auto; fail);
    try (intros; run_popover_more; reflexivity);
    try (intros Hfree Hcells; run_popover_more; unfold hasAttached in *; simpl in *;
         try reflexivity; try congruence;
         try (destruct (Hcells eq_refl) as (cells & Hc); congruence); fail).
Qed.

Lemma consistent_close_ends_size_updates (open : bool) (s : St CdkPopoverEdit) :
  consistent s ->
  open && is_some (template (self s)) = false ->
  sizeSubscriptions (self (final (react K (EditingCell open) s))) = 0%nat.
Proof.
  destruct s as [[host tpl ctx col ft ov d n] w].
  unfold consistent.
  cbn [self world destroyed overlayRef focusTrap sizeSubscriptions template].
  intros [-> Hinv] Hclose.
  destruct ov as [ref|]; destruct Hinv as [-> Hsub]; revert Hclose;
    run_popover_more; intros _; try reflexivity.
  all: destruct n; [reflexivity|]; exfalso;
    unfold hasAttached in *; simpl in *;
    assert (Hn : S n <> 0%nat) by discriminate;
    specialize (Hsub Hn); congruence.
Qed.

End PopoverReachable.

(** X12.  In every state a new directive can reach through inputs, the
    non-null assertions on the overlay reference and on the focus trap never
    fail, and an edit event throws in two cases only, both of them opens
    with a template: there is no overlay yet and the cell range cannot be
    computed (the exception is the one of [_getOverlayCells]), or the
    overlay that the open shows has a portal attached already (the refusal
    of [attach]).  A close always returns, and so does an open whose overlay
    has no portal attached and whose cell range, if the overlay is still to
    be created, can be computed. *)
Theorem edit_event_throws_only_without_cell_range
    (K : Constants) (host : Element) (w : World) (inputs : list PopoverEdit.Input)
    (open : bool) :
  let s := fst (PopoverEdit.run K inputs (mkSt (PopoverEdit.new host) w)) in
  let r := PopoverEdit.react K (PopoverEdit.EditingCell open) s in
  (forall msg, outcome r = Throw msg ->
   open = true /\ PopoverEdit.template (self s) <> None /\
   ((PopoverEdit.overlayRef (self s) = None /\ current_cells K s = Throw msg) \/
    (hasAttached (world s) (shown_overlay s) = true /\ msg = Error_portal_attached))) /\
  (open && PopoverEdit.is_some (PopoverEdit.template (self s)) = false ->
   outcome r = Ok tt) /\
  (hasAttached (world s) (shown_overlay s) = false ->
   (PopoverEdit.overlayRef (self s) = None ->
    exists cells, current_cells K s = Ok cells) ->
   outcome r = Ok tt).
Proof.
  intros s r. apply consistent_edit_event_outcome.
  apply run_consistent, new_consistent.
Qed.

(** X13.  In every state a new directive can reach through inputs, after a
    close (an edit event that does not open) a scroll or a change of the
    viewport makes no call: the size of a closed popover is not updated. *)
Theorem close_ends_size_updates
    (K : Constants) (host : Element) (w : World) (inputs : list PopoverEdit.Input)
    (open : bool) :
  let s := fst (PopoverEdit.run K inputs (mkSt (PopoverEdit.new host) w)) in
  open && PopoverEdit.is_some (PopoverEdit.template (self s)) = false ->
  let closed := final (PopoverEdit.react K (PopoverEdit.EditingCell open) s) in
  calls (PopoverEdit.react K PopoverEdit.ViewportChanged closed) = [] /\
  final (PopoverEdit.react K PopoverEdit.ViewportChanged closed) = closed.
Proof.
  intros s Hclose closed.
  assert (Hzero : PopoverEdit.sizeSubscriptions (self closed) = 0%nat).
  { apply consistent_close_ends_size_updates; [|exact Hclose].
    apply run_consistent, new_consistent. }
  rewrite react_viewport, Hzero. split; reflexivity.
Qed.

(** X14.  When the size is not being followed (before the first open, or
    after a close), the overlay that an open shows has no portal attached,
    and an open succeeds, a scroll or a change of the viewport that comes
    next makes exactly one call: [updateSize] on the overlay, for the cell
    range of the directive. *)
Theorem open_follows_the_viewport
    (K : Constants) (s : St PopoverEdit.CdkPopoverEdit) (tpl : TemplateRef)
    (cells : list ElementOrNull) :
  consistent s ->
  PopoverEdit.sizeSubscriptions (self s) = 0%nat ->
  hasAttached (world s) (shown_overlay s) = false ->
  PopoverEdit.template (self s) = Some tpl ->
  current_cells K s = Ok cells ->
  let opened := final (PopoverEdit.react K (PopoverEdit.EditingCell true) s) in
  exists ref,
    PopoverEdit.overlayRef (self opened) = Some ref /\
    calls (PopoverEdit.react K PopoverEdit.ViewportChanged opened)
    = [overlayRef_updateSize ref cells].
Proof.
  destruct s as [[host tp ctx col ft ov d n] w].
  unfold consistent, current_cells, shown_overlay.
  cbn [self world PopoverEdit.destroyed PopoverEdit.overlayRef PopoverEdit.focusTrap
       PopoverEdit.sizeSubscriptions PopoverEdit.template PopoverEdit.elementRef
       PopoverEdit._colspan].
  intros [-> Hinv] -> Hfree -> Hcells.
  set (opened := final (PopoverEdit.react K (PopoverEdit.EditingCell true) _)).
  assert (Hopened : exists ref,
            PopoverEdit.overlayRef (self opened) = Some ref /\
            PopoverEdit.sizeSubscriptions (self opened) = 1%nat /\
            current_cells K opened = Ok cells).
  { unfold opened, current_cells.
    destruct ov as [ref|]; destruct Hinv as [-> Hsub];
      unfold_popover_more; unfold_popover; unfold_monad; simpl;
      rewrite ?Hcells; simpl;
      unfold hasAttached in *; simpl in *; rewrite Hfree; simpl;
      rewrite ?Hcells; simpl; eexists; repeat split; exact Hcells. }
  destruct Hopened as (ref & Href & Hone & Hcur).
  exists ref. split; [exact Href|].
  rewrite react_viewport, Hone.
  now rewrite (@repeat_size_subscriber_calls K 1 opened ref cells Href Hcur).
Qed.

(** ** More on the table events *)

(** X15.  [CdkEditable] only forwards: an event makes at most one call and
    changes neither the directive nor the page.  Only a keyup of Enter
    reaches the editing stream, only a mouseover or a mouseleave reaches the
    hovering stream, and only a keydown reaches the key observer, which gets
    every key with its target; [stopPropagation] is never called. *)
Theorem table_events_are_only_forwarded
    (K : Constants) (ev : Editable.TableEvent) (s : St Editable.CdkEditable) :
  let r := Editable.dispatch K ev s in
  final r = s /\
  outcome r = Ok tt /\
  (List.length (calls r) <= 1)%nat /\
  (filter is_editing_next (calls r) <> [] ->
   exists target, ev = Editable.keyup "Enter" target) /\
  (filter is_hovering_next (calls r) <> [] ->
   exists target, ev = Editable.mouseover target \/ ev = Editable.mouseleave target) /\
  (filter is_keyObserver_next (calls r) <> [] ->
   exists key target, ev = Editable.keydown key target) /\
  (forall key target,
     ev = Editable.keydown key target -> Editable.destroyed (self s) = false ->
     calls r = [keyObserver_next key target]) /\
  (forall evt, ~ In (stopPropagation evt) (calls r)).
Proof.
  destruct s as [[host d] w].
  unfold Editable.dispatch, Editable.toClosest.
  unfold_monad. simpl.
  destruct d, ev as [t|t|key t|key t]; simpl;
    try destruct (String.eqb_spec key "Enter") as [->|Hne]; simpl;
    (split; [reflexivity|]); (split; [reflexivity|]); (split; [lia|]);
    (split; [intros H; try (exfalso; apply H; reflexivity); eauto|]);
    (split; [intros H; try (exfalso; apply H; reflexivity); eauto|]);
    (split; [intros H; try (exfalso; apply H; reflexivity); eauto|]);
    (split; [intros k tg H Hd; try discriminate; try congruence
            | intros evt H; simpl in H; intuition discriminate]).
Qed.

(** ** More on the row hover content *)

Section ContainerFacts.

Lemma without_absent (v : nat) (l : list nat) : ~ In v l -> without v l = l.
Proof.
  unfold without. induction l as [|u l IH]; simpl; intros Hv; [reflexivity|].
  destruct (Nat.eqb_spec v u) as [->|Hne]; simpl.
  - exfalso. apply Hv. now left.
  - f_equal. apply IH. tauto.
Qed.

Lemma without_app (v : nat) (l l' : list nat) :
  without v (l ++ l') = without v l ++ without v l'.
Proof. unfold without. apply filter_app. Qed.

Lemma without_removes (v : nat) (l : list nat) : ~ In v (without v l).
Proof.
  unfold without. intros H. apply filter_In in H as [_ H].
  now rewrite Nat.eqb_refl in H.
Qed.

Lemma without_twice (v : nat) (l : list nat) : without v (without v l) = without v l.
Proof. apply without_absent, without_removes. Qed.

Lemma indexOf_absent (v : nat) (l : list nat) (i : Z) :
  ~ In v l -> JsArray.indexOf_from Nat.eqb l v i = -1.
Proof.
  revert i. induction l as [|u l IH]; intros i Hv; simpl; [reflexivity|].
  destruct (Nat.eqb_spec u v) as [->|Hne].
  - exfalso. apply Hv. now left.
  - apply IH. simpl in Hv. tauto.
Qed.

(** Detaching at the index of a view removes that view and no other. *)
Lemma remove_at_indexOf (v : nat) (l : list nat) :
  NoDup l ->
  RowHoverContent.remove_at (JsArray.indexOf Nat.eqb l v) l = without v l.
Proof.
  intros Hnd. destruct (in_dec Nat.eq_dec v l) as [Hin|Hout].
  - apply in_split in Hin as (pre & post & ->).
    pose proof (NoDup_remove_2 _ _ _ Hnd) as Hv.
    rewrite in_app_iff in Hv.
    rewrite indexOf_first; [|apply Nat.eqb_refl|].
    + unfold RowHoverContent.remove_at.
      rewrite length_app. simpl List.length.
      destruct (Z.leb_spec 0 (Z.of_nat (List.length pre))); [|lia].
      destruct (Z.ltb_spec (Z.of_nat (List.length pre))
                  (Z.of_nat (List.length pre + S (List.length post)))); [|lia].
      simpl andb. cbv iota. rewrite Nat2Z.id.
      assert (Hfirst : firstn (List.length pre) (pre ++ v :: post) = pre).
      { rewrite <- (Nat.add_0_r (List.length pre)), firstn_app_2.
        simpl. apply app_nil_r. }
      assert (Hskip : skipn (S (List.length pre)) (pre ++ v :: post) = post).
      { clear. induction pre as [|u pre IH]; simpl; [reflexivity | exact IH]. }
      rewrite Hfirst, Hskip, without_app.
      assert (Hone : without v (v :: post) = without v post).
      { unfold without. simpl. now rewrite Nat.eqb_refl. }
      rewrite Hone, !without_absent by tauto. reflexivity.
    + intros y Hy. apply Nat.eqb_neq. intros ->. tauto.
  - unfold JsArray.indexOf. rewrite indexOf_absent by assumption.
    unfold RowHoverContent.remove_at. simpl.
    now rewrite without_absent.
Qed.

Lemma NoDup_without (v : nat) (l : list nat) : NoDup l -> NoDup (without v l).
Proof. apply NoDup_filter. Qed.

End ContainerFacts.

(** X16.  A hover-off with a retained view takes exactly that view out of
    the container: the other views stay, in their order, and the reference
    is kept for the next hover-on. *)
Theorem hover_off_detaches_exactly_the_view
    (s : St RowHoverContent.CdkRowHoverContent) (v : EmbeddedViewRef) :
  RowHoverContent.viewRef (self s) = Some v ->
  NoDup (containerViews (world s)) ->
  let r := RowHoverContent.hoveringOnRow_next false s in
  containerViews (world (final r)) = without v (containerViews (world s)) /\
  ~ In v (containerViews (world (final r))) /\
  (forall u, u <> v -> In u (containerViews (world s)) ->
             In u (containerViews (world (final r)))) /\
  RowHoverContent.viewRef (self (final r)) = Some v.
Proof.
  destruct s as [[host tpl vr d] w].
  cbn [self world RowHoverContent.viewRef]. intros -> Hnd.
  unfold_hover. unfold_monad. simpl.
  unfold RowHoverContent.viewContainerRef_indexOf.
  rewrite remove_at_indexOf by assumption.
  repeat split.
  - apply without_removes.
  - intros u Hu Hin. unfold without. apply filter_In. split; [exact Hin|].
    apply negb_true_iff, Nat.eqb_neq. congruence.
Qed.

Section HoverShown.

Import RowHoverContent.

Lemma last_cons {A : Type} (h : A) (rest : list A) (d : A) :
  last (h :: rest) d = last rest h.
Proof.
  revert h d. induction rest as [|h' rest IH]; intros h d; [reflexivity|].
  change (last (h :: h' :: rest) d) with (last (h' :: rest) d).
  now rewrite (IH h' d), (IH h' h).
Qed.

Lemma views_known_fresh (w : World) : views_known w -> ~ In (viewsCreated w) (containerViews w).
Proof.
  unfold views_known. rewrite Forall_forall. intros Hk Hin.
  specialize (Hk _ Hin). lia.
Qed.

Lemma hover_shown_step (l0 : list EmbeddedViewRef) (v : EmbeddedViewRef)
    (shown h : bool) (s : St CdkRowHoverContent) :
  shows l0 v shown s -> shows l0 v h (final (react h s)).
Proof.
  destruct s as [[host tpl vr d] w]. unfold shows.
  cbn [self world destroyed viewRef].
  intros (-> & Hnd & Hv & Hcont & Hview).
  assert (Hndv : NoDup (l0 ++ [v])).
  { apply NoDup_app; [exact Hnd | repeat constructor; intros [] |].
    intros u Hu [<-|[]]. contradiction. }
  destruct vr as [v'|]; [subst v' | destruct Hview as [-> ->]];
    destruct h; unfold_hover; unfold_monad; simpl;
    (split; [reflexivity|]); (split; [exact Hnd|]); (split; [exact Hv|]).
  - split; [|reflexivity]. rewrite Hcont, without_app, without_absent by exact Hv.
    destruct shown; simpl; [|now rewrite app_nil_r].
    unfold without. simpl. rewrite Nat.eqb_refl. simpl. now rewrite app_nil_r.
  - split; [|reflexivity]. unfold viewContainerRef_indexOf.
    rewrite remove_at_indexOf.
    + rewrite Hcont, without_app, without_absent by exact Hv.
      destruct shown; simpl; [|reflexivity].
      unfold without. simpl. now rewrite Nat.eqb_refl.
    + rewrite Hcont. destruct shown; [exact Hndv | now rewrite app_nil_r].
  - split; [|reflexivity]. rewrite Hcont. simpl. now rewrite app_nil_r.
  - split; [exact Hcont|]. split; reflexivity.
Qed.

Lemma hover_shown_run (l0 : list EmbeddedViewRef) (v : EmbeddedViewRef)
    (hovers : list bool) :
  forall (shown : bool) (s : St CdkRowHoverContent),
    shows l0 v shown s ->
    shows l0 v (last hovers shown) (fst (run hovers s)).
Proof.
  induction hovers as [|h rest IH]; intros shown s Hs; [exact Hs|].
  rewrite last_cons. simpl.
  specialize (IH h _ (hover_shown_step h Hs)).
  now destruct (run rest (final (react h s))).
Qed.

End HoverShown.

(** X17.  The content shows exactly while the row is hovered.  For a new
    directive in a container whose views are distinct and were made
    earlier, after any sequence of hover events the container holds the
    views it held at the start, in their order, followed by the view of the
    directive if and only if the last event was a hover-on. *)
Theorem hover_content_shows_iff_last_hover_on
    (host : Element) (tpl : TemplateRef) (w : World) (hovers : list bool) :
  NoDup (containerViews w) ->
  views_known w ->
  containerViews (world (fst (RowHoverContent.run hovers
                                (mkSt (RowHoverContent.new host tpl) w))))
  = containerViews w ++ (if last hovers false then [viewsCreated w] else []).
Proof.
  intros Hnd Hknown.
  assert (Hstart : shows (containerViews w) (viewsCreated w) false
                         (mkSt (RowHoverContent.new host tpl) w)).
  { unfold shows. simpl. repeat split; try assumption.
    - now apply views_known_fresh.
    - now rewrite app_nil_r. }
  pose proof (hover_shown_run hovers Hstart) as Hend.
  unfold shows in Hend. tauto.
Qed.

(** X18.  Once its [ngOnDestroy] has run, [CdkRowHoverContent] makes no call
    on a hover event and changes nothing, and [CdkEditable] forwards no
    table event. *)
Theorem destroyed_directives_ignore_events
    (K : Constants) (h : bool) (ev : Editable.TableEvent)
    (s : St RowHoverContent.CdkRowHoverContent) (e : St Editable.CdkEditable) :
  let d := final (RowHoverContent.ngOnDestroy s) in
  let d' := final (Editable.ngOnDestroy e) in
  calls (RowHoverContent.react h d) = [] /\
  final (RowHoverContent.react h d) = d /\
  calls (Editable.dispatch K ev d') = [] /\
  final (Editable.dispatch K ev d') = d'.
Proof.
  destruct s as [[host tpl vr d0] w], e as [[host' d1] w'].
  repeat split; unfold_hover; unfold_monad; simpl; destruct vr; reflexivity.
Qed.

(** X19.  The directive calls [focus()] on its cell in one place only: an
    input that makes such a call is an edit event that closes, and the call
    is made on the host element.  An open, a change of template, context or
    colspan, a scroll and [ngOnDestroy] never move the focus to the cell. *)
Theorem focus_is_returned_only_by_a_close
    (K : Constants) (i : PopoverEdit.Input) (s : St PopoverEdit.CdkPopoverEdit) :
  (filter is_focus (calls (PopoverEdit.react K i s)) <> [] ->
   exists open,
     i = PopoverEdit.EditingCell open /\
     open && PopoverEdit.is_some (PopoverEdit.template (self s)) = false /\
     filter is_focus (calls (PopoverEdit.react K i s))
     = [element_focus (PopoverEdit.elementRef (self s))]) /\
  filter is_focus (calls (PopoverEdit.ngOnDestroy s)) = [].
Proof.
  split.
  - destruct i as [open|t|c|c| |dm|e].
    + destruct s as [[host tpl ctx col ft ov d n] w].
      cbn [self PopoverEdit.template PopoverEdit.elementRef].
      run_popover_more; intros H; try (exfalso; apply H; reflexivity);
        exists open; repeat split; assumption.
    + destruct s as [[host tpl ctx col ft ov d n] w].
      run_popover_more; intros H; exfalso; apply H; reflexivity.
    + destruct s as [[host tpl ctx col ft ov d n] w].
      run_popover_more; intros H; exfalso; apply H; reflexivity.
    + destruct s as [[host tpl ctx col ft ov d n] w].
      run_popover_more; intros H; exfalso; apply H; reflexivity.
    + rewrite react_viewport. intros H. exfalso. apply H.
      destruct (repeat_size_subscriber_frame K
                  (PopoverEdit.sizeSubscriptions (self s)) s) as (n' & t & -> & _ & Hc).
      cbn [calls]. now apply (@size_calls_filter _ _ is_focus Hc).
    + destruct s as [[host tpl ctx col ft ov d n] w].
      run_popover_more; intros H; exfalso; apply H; reflexivity.
    + destruct s as [[host tpl ctx col ft ov d n] w].
      run_popover_more; intros H; exfalso; apply H; reflexivity.
  - destruct s as [[host tpl ctx col ft ov d n] w].
    run_popover; reflexivity.
Qed.

(** ** The further properties at concrete pages *)

Lemma getOverlayCells_is_run_of_row_witness :
  exists r,
    _getOverlayCells K dom0 middle_cell (mkColspan (Some 1) (Some 1)) = Ok r /\
    run_of r (map Some (querySelectorAll dom0 10%nat (CELL_SELECTOR K))).
Proof.
  apply (@getOverlayCells_is_run_of_row K dom0 middle_cell
           (mkColspan (Some 1) (Some 1)) 10%nat); reflexivity.
Defined.

Lemma getOverlayCells_length_bound_witness :
  Z.of_nat (List.length [Some 1%nat; Some 2%nat; Some 3%nat])
  <= or_zero (before (mkColspan (Some 1) (Some 1)))
     + or_zero (after (mkColspan (Some 1) (Some 1))) + 1.
Proof.
  apply (@getOverlayCells_length_bound K dom0 middle_cell (mkColspan (Some 1) (Some 1))).
  - simpl. lia.
  - simpl. lia.
  - reflexivity.
Defined.

Lemma getOverlayCells_misses_origin_cell_witness :
  exists r,
    _getOverlayCells K dom0 first_cell (mkColspan (Some 1) None) = Ok r /\
    run_of r (map Some [2%nat; 3%nat]) /\
    ~ In (Some 1%nat) r.
Proof.
  apply (@getOverlayCells_misses_origin_cell K dom0 first_cell (mkColspan (Some 1) None)
           1%nat 10%nat [] [2%nat; 3%nat] 1%nat 0%nat).
  - reflexivity.
  - reflexivity.
  - reflexivity.
  - repeat constructor; simpl; intuition discriminate.
  - reflexivity.
  - reflexivity.
  - simpl. lia.
  - simpl. lia.
Defined.

Lemma getOverlayCells_before_at_least_row_length_witness :
  _getOverlayCells K dom0 middle_cell (mkColspan (Some 4) None)
  = Ok (map Some
          (skipn (List.length [1%nat] - (4 - (List.length [1%nat] + 1 + List.length [3%nat])))
                 [1%nat]
           ++ 2%nat :: firstn 0 [3%nat])).
Proof.
  apply (@getOverlayCells_before_at_least_row_length K dom0 middle_cell
           (mkColspan (Some 4) None) 2%nat 10%nat [1%nat] [3%nat] 4%nat 0%nat).
  - reflexivity.
  - reflexivity.
  - reflexivity.
  - simpl. intros [H|[]]. discriminate H.
  - reflexivity.
  - reflexivity.
  - simpl. lia.
Defined.

Lemma colspan_setter_repositions_for_the_new_value_witness :
  let r := PopoverEdit.set_colspan K (mkColspan (Some 1) (Some 1)) opened in
  calls r = overlayRef_updatePositionStrategy overlay0
              [Some 1%nat; Some 2%nat; Some 3%nat]
            :: (if hasAttached (world opened) overlay0
                then [overlayRef_updateSize overlay0 [Some 1%nat; Some 2%nat; Some 3%nat]]
                else []) /\
  outcome r = Ok tt.
Proof.
  apply (@colspan_setter_repositions_for_the_new_value K (mkColspan (Some 1) (Some 1))
           opened overlay0 [Some 1%nat; Some 2%nat; Some 3%nat]); reflexivity.
Defined.

Lemma open_sets_up_the_overlay_witness :
  let r := PopoverEdit.editingCell_next K true fresh in
  let ctx := PopoverEdit.context (self fresh) in
  (PopoverEdit.overlayRef (self fresh) = None ->
   let ref := shown_overlay fresh in
   hasAttached (world fresh) ref = false ->
   outcome r = Ok tt /\
   calls r = [overlay_create (EDIT_PANE_CLASS K) [Some middle_cell] ref;
              focusTrapFactory_create (overlayElement ref);
              setAttribute (overlayElement ref) "aria-role" "dialog";
              overlayRef_detachments_subscribe ref;
              overlayRef_attach ref (Some 7%nat) ctx;
              focusInitialElementWhenReady (mkFocusTrap (overlayElement ref));
              overlayRef_detachments ref;
              overlayRef_updateSize ref [Some middle_cell]]) /\
  (forall ref trap,
     PopoverEdit.overlayRef (self fresh) = Some ref ->
     PopoverEdit.focusTrap (self fresh) = Some trap ->
     hasAttached (world fresh) ref = false ->
     outcome r = Ok tt /\
     calls r = [overlayRef_attach ref (Some 7%nat) ctx;
                focusInitialElementWhenReady trap;
                overlayRef_detachments ref;
                overlayRef_updateSize ref [Some middle_cell]]) /\
  (forall ref,
     PopoverEdit.overlayRef (self fresh) = Some ref ->
     hasAttached (world fresh) ref = true ->
     outcome r = Throw Error_portal_attached /\
     calls r = [overlayRef_attach ref (Some 7%nat) ctx] /\
     final r = fresh).
Proof.
  apply (@open_sets_up_the_overlay K fresh 7%nat [Some middle_cell]); reflexivity.
Defined.

Lemma open_without_cell_range_throws_witness :
  let r := PopoverEdit.editingCell_next K true misplaced in
  (PopoverEdit.overlayRef (self misplaced) = None ->
   outcome r = Throw TypeError_null /\ calls r = [] /\ final r = misplaced) /\
  (forall ref trap,
     PopoverEdit.overlayRef (self misplaced) = Some ref ->
     PopoverEdit.focusTrap (self misplaced) = Some trap ->
     hasAttached (world misplaced) ref = false ->
     outcome r = Ok tt /\
     calls r = [overlayRef_attach ref (Some 7%nat) (PopoverEdit.context (self misplaced));
                focusInitialElementWhenReady trap;
                overlayRef_detachments ref] /\
     self (final r) = self misplaced /\
     hasAttached (world (final r)) ref = true).
Proof.
  apply (@open_without_cell_range_throws K misplaced 7%nat TypeError_null); reflexivity.
Defined.

Lemma close_ends_size_updates_witness :
  let s := fst (PopoverEdit.run K
                  [PopoverEdit.SetTemplate (Some 7%nat); PopoverEdit.EditingCell true]
                  (mkSt (PopoverEdit.new middle_cell) world0)) in
  let closed := final (PopoverEdit.react K (PopoverEdit.EditingCell false) s) in
  calls (PopoverEdit.react K PopoverEdit.ViewportChanged closed) = [] /\
  final (PopoverEdit.react K PopoverEdit.ViewportChanged closed) = closed.
Proof.
  apply (@close_ends_size_updates K middle_cell world0
           [PopoverEdit.SetTemplate (Some 7%nat); PopoverEdit.EditingCell true] false).
  reflexivity.
Defined.

Lemma open_follows_the_viewport_witness :
  let opened := final (PopoverEdit.react K (PopoverEdit.EditingCell true) fresh) in
  exists ref,
    PopoverEdit.overlayRef (self opened) = Some ref /\
    calls (PopoverEdit.react K PopoverEdit.ViewportChanged opened)
    = [overlayRef_updateSize ref [Some middle_cell]].
Proof.
  apply (@open_follows_the_viewport K fresh 7%nat [Some middle_cell]).
  - repeat split.
  - reflexivity.
  - reflexivity.
  - reflexivity.
  - reflexivity.
Defined.

Lemma hover_off_detaches_exactly_the_view_witness :
  let r := RowHoverContent.hoveringOnRow_next false hovered in
  containerViews (world (final r)) = without 0%nat (containerViews (world hovered)) /\
  ~ In 0%nat (containerViews (world (final r))) /\
  (forall u, u <> 0%nat -> In u (containerViews (world hovered)) ->
             In u (containerViews (world (final r)))) /\
  RowHoverContent.viewRef (self (final r)) = Some 0%nat.
Proof.
  apply (@hover_off_detaches_exactly_the_view hovered 0%nat).
  - reflexivity.
  - repeat constructor; simpl; intuition discriminate.
Defined.

Lemma hover_content_shows_iff_last_hover_on_witness :
  containerViews (world (fst (RowHoverContent.run [true; false; true]
                                (mkSt (RowHoverContent.new 10%nat 7%nat) (world hovered)))))
  = containerViews (world hovered)
    ++ (if last [true; false; true] false then [viewsCreated (world hovered)] else []).
Proof.
  apply (@hover_content_shows_iff_last_hover_on 10%nat 7%nat (world hovered)
           [true; false; true]).
  - repeat constructor; simpl; intuition discriminate.
  - unfold views_known. simpl. repeat constructor.
Defined.
